(** * WhisperLive Chrome extension: streaming session and transcript renderer

    A shallow embedding of the algorithmic parts of the extension:
    - [Resampler]: [resampleTo16kHZ] of options.js;
    - [Session]: the socket and audio callbacks of [startRecord] in options.js;
    - [Renderer]: [getLines], [updateTranscription] and the message listener
      of the content script.

    JavaScript numbers are IEEE doubles.  They are idealised here as exact
    rationals extended with the three non-finite values; rounding of finite
    results (double and Float32 storage) is not modelled. *)

From Stdlib Require Import ZArith QArith Qround Qabs Lia Lqa Ascii String List.
From stdpp Require Import base list.
Import ListNotations.

Local Open Scope Z_scope.

(** ** JavaScript numbers *)

Module JsNum.

Inductive number : Type :=
  | Finite (q : Q)
  | PosInf
  | NegInf
  | NaN.

Definition sign (q : Q) : comparison := Qcompare q 0.

(** [a / b] on numbers that are integers in the source. *)
Definition div_int (a b : Z) : number :=
  if b =? 0 then
    match a ?= 0 with
    | Gt => PosInf
    | Lt => NegInf
    | Eq => NaN
    end
  else Finite (Qdiv (inject_Z a) (inject_Z b)).

Definition neg (x : number) : number :=
  match x with
  | Finite q => Finite (Qopp q)
  | PosInf => NegInf
  | NegInf => PosInf
  | NaN => NaN
  end.

Definition add (x y : number) : number :=
  match x, y with
  | NaN, _ | _, NaN => NaN
  | Finite p, Finite q => Finite (Qplus p q)
  | PosInf, NegInf | NegInf, PosInf => NaN
  | PosInf, _ | _, PosInf => PosInf
  | NegInf, _ | _, NegInf => NegInf
  end.

Definition sub (x y : number) : number := add x (neg y).

Definition inf_of_sign (c : comparison) : number :=
  match c with
  | Gt => PosInf
  | Lt => NegInf
  | Eq => NaN
  end.

Definition mul (x y : number) : number :=
  match x, y with
  | NaN, _ | _, NaN => NaN
  | Finite p, Finite q => Finite (Qmult p q)
  | Finite p, PosInf | PosInf, Finite p => inf_of_sign (sign p)
  | Finite p, NegInf | NegInf, Finite p => inf_of_sign (CompOpp (sign p))
  | PosInf, PosInf | NegInf, NegInf => PosInf
  | PosInf, NegInf | NegInf, PosInf => NegInf
  end.

(** [Math.floor] and [Math.ceil]: the non-finite values are fixed points. *)
Definition floor (x : number) : number :=
  match x with
  | Finite q => Finite (inject_Z (Qfloor q))
  | _ => x
  end.

Definition ceil (x : number) : number :=
  match x with
  | Finite q => Finite (inject_Z (Qceiling q))
  | _ => x
  end.

(** [Math.abs(x) > c] for a finite constant [c]. *)
Definition abs_gt (x : number) (c : Q) : bool :=
  match x with
  | Finite q => if Qlt_le_dec c (Qabs q) then true else false
  | PosInf | NegInf => true
  | NaN => false
  end.

(** [x > c] for an integer [c]; every comparison with [NaN] is false. *)
Definition gt_int (x : number) (c : Z) : bool :=
  match x with
  | Finite q => if Qlt_le_dec (inject_Z c) q then true else false
  | PosInf => true
  | NegInf | NaN => false
  end.

(** [Math.round] on a finite value: the nearest integer, halves upwards. *)
Definition round (q : Q) : Z := Qfloor (Qplus q (1 # 2)).

End JsNum.

(** ** Resampler (options.js, [resampleTo16kHZ]) *)

Module Resampler.
Import JsNum.

(** A [Float32Array]: a fixed-length sequence of numbers.  Reading outside
    the bounds gives [undefined] ([None]); writing outside the bounds, which
    includes index [-1], is ignored. *)
Definition f32array := list number.

Definition get (a : f32array) (i : Z) : option number :=
  if i <? 0 then None else a !! Z.to_nat i.

Definition set (a : f32array) (i : Z) (v : number) : f32array :=
  if i <? 0 then a else <[Z.to_nat i := v]> a.

(** Element access at an index that is itself a JavaScript number. *)
Definition get_num (a : f32array) (i : number) : option number :=
  match i with
  | Finite q => if Qeq_bool q (inject_Z (Qfloor q)) then get a (Qfloor q) else None
  | _ => None
  end.

(** Arithmetic on a value that may be [undefined] turns it into [NaN], and so
    does storing [undefined] into a [Float32Array]. *)
Definition to_number (v : option number) : number :=
  match v with
  | Some x => x
  | None => NaN
  end.

Definition targetSampleRate : Z := 16000.

(** [Math.round(data.length * (targetSampleRate / origSampleRate))], in
    exact arithmetic.  The rate is that of an [AudioContext], a positive
    number of hertz. *)
Definition targetLength (len : nat) (origSampleRate : positive) : Z :=
  round (Qmult (inject_Z (Z.of_nat len))
               (Qdiv (inject_Z targetSampleRate) (inject_Z (Z.pos origSampleRate)))).

(** [(data.length - 1) / (targetLength - 1)] *)
Definition springFactor (len : nat) (tl : Z) : number :=
  div_int (Z.of_nat len - 1) (tl - 1).

(** One iteration of the interpolation loop: the value stored at [i]. *)
Definition interpolate (data : f32array) (sf : number) (i : Z) : number :=
  let index := mul (Finite (inject_Z i)) sf in
  let leftIndex := floor index in
  let rightIndex := ceil index in
  let fraction := sub index leftIndex in
  let l := to_number (get_num data leftIndex) in
  let r := to_number (get_num data rightIndex) in
  add l (mul (sub r l) fraction).

(** The body of the function after [targetLength] has been computed. *)
Definition resample_at (data : f32array) (tl : Z) : f32array :=
  let len := length data in
  let resampledData := replicate (Z.to_nat tl) (Finite 0) in
  let sf := springFactor len tl in
  let resampledData := set resampledData 0 (to_number (get data 0)) in
  let resampledData :=
    set resampledData (tl - 1) (to_number (get data (Z.of_nat len - 1))) in
  fold_left (fun out i => set out i (interpolate data sf i))
            (seqZ 1 (tl - 2)) resampledData.

Definition resampleTo16kHZ (audioData : f32array) (origSampleRate : positive)
  : f32array :=
  resample_at audioData (targetLength (length audioData) origSampleRate).

End Resampler.

(** ** Values on the wire *)

Module Wire.

(** Text that is measured and cut character by character; the characters
    are the code units below 256. *)
Definition str := list ascii.

(** A JSON value as far as the handlers look at it: they test fields for
    truthiness and strict equality with a string literal, and pass them on.
    [JObject] stands for any object or array. *)
Inductive jsval : Type :=
  | JUndefined
  | JNull
  | JBool (b : bool)
  | JNum (q : Q)
  | JStr (s : string)
  | JObject.

Definition truthy (v : jsval) : bool :=
  match v with
  | JUndefined | JNull => false
  | JBool b => b
  | JNum q => negb (Qeq_bool q 0)
  | JStr s => negb (String.eqb s EmptyString)
  | JObject => true
  end.

(** [v === "lit"] *)
Definition is_string (v : jsval) (lit : string) : bool :=
  match v with
  | JStr s => String.eqb s lit
  | _ => false
  end.

(** [v === null] *)
Definition is_null (v : jsval) : bool :=
  match v with
  | JNull => true
  | _ => false
  end.

(** One element of [segments]: an object whose [text], when present, is a
    string. *)
Record segment : Type := Segment { text : option str }.

(** The object obtained from [JSON.parse(event.data)]; an absent field reads
    as [JUndefined], an absent [segments] as [None]. *)
Record server_message : Type := ServerMessage {
  data_uid : jsval;
  data_status : jsval;
  data_message : jsval;
  data_backend : jsval;
  data_language : jsval;
  data_language_prob : jsval;
  data_segments : option (list segment)
}.

(** [event.data] as the handler sees it: [Malformed] when [JSON.parse]
    throws or yields [null], so that the first field access throws. *)
Inductive inbound : Type :=
  | Malformed
  | Parsed (data : server_message).

(** The inbound messages of the protocol, each with the fields the server
    sets. *)
Definition wait_message (uid : string) (message : jsval) : server_message :=
  ServerMessage (JStr uid) (JStr "WAIT") message JUndefined JUndefined JUndefined None.

Definition ready_message (uid : string) (backend : jsval) : server_message :=
  ServerMessage (JStr uid) JUndefined (JStr "SERVER_READY") backend
                JUndefined JUndefined None.

Definition language_message (uid : string) (language prob : jsval) : server_message :=
  ServerMessage (JStr uid) JUndefined JUndefined JUndefined language prob None.

Definition disconnect_message (uid : string) : server_message :=
  ServerMessage (JStr uid) JUndefined (JStr "DISCONNECT") JUndefined
                JUndefined JUndefined None.

Definition segments_message (uid : string) (segments : list segment) : server_message :=
  ServerMessage (JStr uid) JUndefined JUndefined JUndefined JUndefined JUndefined
                (Some segments).

End Wire.

(** ** Streaming session (options.js, [startRecord]) *)

Module Session.
Import JsNum Wire.

Record options : Type := Options {
  opt_language : jsval;
  opt_task : jsval;
  opt_modelSize : jsval;
  opt_useVad : jsval;
  currentTabId : Z
}.

(** The configuration object of [socket.onopen]. *)
Record config : Type := Config {
  cfg_uid : string;
  cfg_language : jsval;
  cfg_task : jsval;
  cfg_model : jsval;
  cfg_use_vad : jsval
}.

Inductive ready_state : Type := CONNECTING | OPEN | CLOSING | CLOSED.

Inductive frame : Type :=
  | TextFrame (c : config)
  | BinaryFrame (samples : Resampler.f32array).

Inductive status_type : Type := connection | server | audio.

(** The message argument of each [updateStatus] call, one constructor per
    template with its interpolated values. *)
Inductive status_text : Type :=
  | WebSocketEstablished
  | ConnectedToServer
  | SentConfiguration (c : config)
  | ConnectionClosed (code : Z) (reason : string)
  | Disconnected (reason : string)
  | WebSocketError
  | ConnectionError
  | DifferentClient
  | ServerBusy (message : jsval)
  | ServerReady
  | ServerReadyBackend (backend : jsval)
  | DetectedLanguage (language prob : jsval)
  | ServerDisconnected
  | Transcription (latestText : option str)
  | ErrorProcessingMessage
  | ProcessingAudio
  | SilenceDetected.

Inductive tab_message : Type :=
  | showWaitPopup (data : jsval)
  | transcript (data : server_message).

Inductive runtime_message : Type :=
  | toggleCaptureButtons (data : bool)
  | stopCapture
  | updateSelectedLanguage (detectedLanguage : jsval).

(** What a callback does to the outside, in program order. *)
Inductive effect : Type :=
  | UpdateStatus (type : status_type) (message : status_text) (isError : bool)
  | SocketSend (f : frame)
  | SendMessageToTab (tabId : Z) (m : tab_message)
  | RuntimeSendMessage (m : runtime_message).

(** The variables the callbacks close over.  [readyState] belongs to the
    socket: the browser sets it to [OPEN] before [onopen] runs and to
    [CLOSED] before [onclose] runs. *)
Record state : Type := State {
  isServerReady : bool;
  language : jsval;
  readyState : ready_state
}.

Inductive event : Type :=
  | onopen
  | onclose (code : Z) (reason : string)
  | onerror
  | onmessage (data : inbound)
  | onaudioprocess (inputData : Resampler.f32array).

Section Handlers.

(** Constants of one [startRecord] call. *)
Variable uuid : string.
Variable opts : options.
Variable sampleRate : positive.

Definition initial : state :=
  {| isServerReady := false; language := opt_language opts; readyState := CONNECTING |}.

Definition the_config : config :=
  {| cfg_uid := uuid; cfg_language := opt_language opts; cfg_task := opt_task opts;
     cfg_model := opt_modelSize opts; cfg_use_vad := opt_useVad opts |}.

Definition handle_open (st : state) : state * list effect :=
  ({| isServerReady := isServerReady st; language := language st; readyState := OPEN |},
   [ UpdateStatus connection WebSocketEstablished false;
     UpdateStatus server ConnectedToServer false;
     SocketSend (TextFrame the_config);
     UpdateStatus server (SentConfiguration the_config) false ]).

Definition handle_close (st : state) (code : Z) (reason : string)
  : state * list effect :=
  ({| isServerReady := isServerReady st; language := language st; readyState := CLOSED |},
   [ UpdateStatus connection (ConnectionClosed code reason) true;
     UpdateStatus server (Disconnected reason) true;
     RuntimeSendMessage (toggleCaptureButtons false) ]).

Definition handle_error (st : state) : state * list effect :=
  (st,
   [ UpdateStatus connection WebSocketError true;
     UpdateStatus server ConnectionError true;
     RuntimeSendMessage (toggleCaptureButtons false) ]).

(** [socket.onmessage]: the branches in source order, each ending in
    [return].  The handler is [async]; it is taken to run to completion
    before the next callback, its effects in program order. *)
Definition handle_message (st : state) (d : inbound) : state * list effect :=
  match d with
  | Malformed => (st, [ UpdateStatus server ErrorProcessingMessage true ])
  | Parsed data =>
    if negb (is_string (data_uid data) uuid) then
      (st, [ UpdateStatus server DifferentClient true ])
    else if is_string (data_status data) "WAIT" then
      (st,
       [ UpdateStatus server (ServerBusy (data_message data)) false;
         SendMessageToTab (currentTabId opts) (showWaitPopup (data_message data));
         RuntimeSendMessage (toggleCaptureButtons false);
         RuntimeSendMessage stopCapture ])
    else if negb (isServerReady st) && is_string (data_message data) "SERVER_READY" then
      ({| isServerReady := true; language := language st; readyState := readyState st |},
       [ UpdateStatus connection ServerReady false;
         UpdateStatus server (ServerReadyBackend (data_backend data)) false ])
    else if is_null (language st) && truthy (data_language data) then
      ({| isServerReady := isServerReady st; language := data_language data;
          readyState := readyState st |},
       [ UpdateStatus server
           (DetectedLanguage (data_language data) (data_language_prob data)) false;
         RuntimeSendMessage (updateSelectedLanguage (data_language data)) ])
    else if is_string (data_message data) "DISCONNECT" then
      (st,
       [ UpdateStatus server ServerDisconnected false;
         RuntimeSendMessage (toggleCaptureButtons false) ])
    else
      match data_segments data with
      | Some segments =>
        (st,
         (match last segments with
          | Some latest => [ UpdateStatus server (Transcription (text latest)) false ]
          | None => []
          end)
         ++ [ SendMessageToTab (currentTabId opts) (transcript data) ])
      | None => (st, [])
      end
  end.

(** [inputData.some(sample => Math.abs(sample) > 0.01)] *)
Definition hasAudio (inputData : Resampler.f32array) : bool :=
  existsb (fun sample => abs_gt sample (1 # 100)) inputData.

(** [processor.onaudioprocess]; [audioContext] is a constant object, so the
    first guard reduces to [!isServerReady]. *)
Definition handle_audio (st : state) (inputData : Resampler.f32array)
  : state * list effect :=
  if negb (isServerReady st) then (st, [])
  else if hasAudio inputData then
    (st,
     UpdateStatus audio ProcessingAudio false ::
     (let audioData16kHz := Resampler.resampleTo16kHZ inputData sampleRate in
      match readyState st with
      | OPEN => [ SocketSend (BinaryFrame audioData16kHz) ]
      | _ => []
      end))
  else (st, [ UpdateStatus audio SilenceDetected false ]).

Definition step (st : state) (e : event) : state * list effect :=
  match e with
  | onopen => handle_open st
  | onclose code reason => handle_close st code reason
  | onerror => handle_error st
  | onmessage d => handle_message st d
  | onaudioprocess inputData => handle_audio st inputData
  end.

(** The callbacks run one after the other; the effects are collected in
    order. *)
Fixpoint run (st : state) (es : list event) : state * list effect :=
  match es with
  | [] => (st, [])
  | e :: es' =>
    let '(st1, out1) := step st e in
    let '(st2, out2) := run st1 es' in
    (st2, out1 ++ out2)
  end.

End Handlers.

(** The binary frames among the effects: what a mock transport observes as
    audio. *)
Definition is_audio_frame (x : effect) : bool :=
  match x with
  | SocketSend (BinaryFrame _) => true
  | _ => false
  end.

Definition audio_frames (out : list effect) : list effect :=
  List.filter is_audio_frame out.

Definition is_busy_event (x : effect) : bool :=
  match x with
  | UpdateStatus server (ServerBusy _) _ => true
  | _ => false
  end.

Definition is_transcript_forward (x : effect) : bool :=
  match x with
  | SendMessageToTab _ (transcript _) => true
  | _ => false
  end.

Definition is_audio_event (e : event) : bool :=
  match e with
  | onaudioprocess _ => true
  | _ => false
  end.

End Session.

(** ** Transcript renderer (content script) *)

Module Renderer.
Import JsNum Wire.

Definition space : ascii := " "%char.
Definition LF : ascii := ascii_of_nat 10.
Definition CR : ascii := ascii_of_nat 13.

(** [s.split(' ')]: always at least one piece. *)
Fixpoint split (s : str) : list str :=
  match s with
  | [] => [[]]
  | c :: s' =>
    if Ascii.eqb c space then [] :: split s'
    else match split s' with
         | w :: ws => (c :: w) :: ws
         | [] => [[c]]
         end
  end.

(** [pieces.join(' ')] *)
Fixpoint join (pieces : list str) : str :=
  match pieces with
  | [] => []
  | [p] => p
  | p :: rest => p ++ space :: join rest
  end.

(** [s.substring(a, b)]: both indices are clamped to [0, s.length] and
    swapped when the first is the larger. *)
Definition substring (s : str) (a b : Z) : str :=
  let n := Z.of_nat (length s) in
  let a := Z.max 0 (Z.min a n) in
  let b := Z.max 0 (Z.min b n) in
  let lo := Z.min a b in
  let hi := Z.max a b in
  take (Z.to_nat (hi - lo)) (drop (Z.to_nat lo) s).

(** [text.replace(/(\r\n|\n|\r)/gm, " ")] *)
Fixpoint replace_breaks (s : str) : str :=
  match s with
  | [] => []
  | c :: s' =>
    if Ascii.eqb c CR then
      match s' with
      | d :: s'' => if Ascii.eqb d LF then space :: replace_breaks s''
                    else space :: replace_breaks s'
      | [] => [space]
      end
    else if Ascii.eqb c LF then space :: replace_breaks s'
    else c :: replace_breaks s'
  end.

(** White space as [trim] sees it, among the code units below 256. *)
Definition is_white (c : ascii) : bool :=
  let n := nat_of_ascii c in
  ((9 <=? n)%nat && (n <=? 13)%nat) || (n =? 32)%nat || (n =? 160)%nat.

(** [text.trim()] is truthy. *)
Definition has_content (s : str) : bool := existsb (fun c => negb (is_white c)) s.

(** The variables of the loop in [getLines]. *)
Record lines_state : Type := LinesState {
  segments : list str;
  currentLines : Z;
  segment : str;
  segmentLen : Z
}.

Definition len (s : str) : Z := Z.of_nat (length s).

Section Layout.

(** The layout engine: the [offsetHeight] of the measuring element when its
    content is the given text. *)
Variable offsetHeight : str -> Z.

(** One iteration of the loop over [words]. *)
Definition lines_step (lineHeight : Z) (st : lines_state) (word : str) : lines_state :=
  let segment' := segment st ++ word ++ [space] in
  if gt_int (div_int (offsetHeight segment') lineHeight) (currentLines st) then
    let lineSegment :=
      substring segment' (segmentLen st) (len segment' - 1 - len word - 1) in
    {| segments := segments st ++ [lineSegment];
       currentLines := currentLines st + 1;
       segment := segment';
       segmentLen := segmentLen st + len lineSegment + 1 |}
  else
    {| segments := segments st;
       currentLines := currentLines st;
       segment := segment';
       segmentLen := segmentLen st |}.

Definition lines_init : lines_state :=
  {| segments := []; currentLines := 1; segment := []; segmentLen := 0 |}.

(** [getLines(element, lineHeight)] for an existing element whose
    [innerHTML] reads [originalText]; the content is restored before
    returning. *)
Definition getLines (originalText : str) (lineHeight : Z) : list str :=
  let words := split originalText in
  let st := fold_left (lines_step lineHeight) words lines_init in
  let lastSegment := substring (segment st) (segmentLen st) (len (segment st) - 1) in
  segments st ++ [lastSegment].

(** [parseInt(getStyle('t3', 'line-height'))]: [None] is [NaN]. *)
Variable lineHeightStyle : option Z.

(** [parseInt(lineHeightStyle) || 24] *)
Definition lineHeight : Z :=
  match lineHeightStyle with
  | Some z => if z =? 0 then 24 else z
  | None => 24
  end.

Inductive popup_text : Type :=
  | WaitTime (data : jsval)
  | ErrorText.

(** The state of the content script.  [transcriptionContainer] is [None]
    for [null]; otherwise it holds what was last assigned to the [innerHTML]
    of the three visible elements [t0], [t1], [t2].  The measuring element
    [t3] is empty between updates.  The vertical offsets of the visible
    elements come from the layout engine and are left out. *)
Record page : Type := Page {
  transcriptionContainer : option (list str);
  textSegments : list str;
  popup : option popup_text
}.

Definition page_init : page :=
  {| transcriptionContainer := None; textSegments := []; popup := None |}.

(** [textSegments.slice(Math.max(0, textSegments.length - 3))] *)
Definition segmentsToShow (textSegments : list str) : list str :=
  drop (Z.to_nat (Z.max 0 (Z.of_nat (length textSegments) - 3))) textSegments.

(** [segmentsToShow.forEach((segment, index) => ...)], starting at [index]:
    an element that does not exist is skipped. *)
Fixpoint show_segments (index : nat) (toShow : list str) (textElements : list str)
  : list str :=
  match toShow with
  | [] => textElements
  | segment :: rest => show_segments (S index) rest (<[index := segment]> textElements)
  end.

(** [initTranscriptionElement]: three empty visible elements. *)
Definition initTranscriptionElement : list str := [[]; []; []].

(** What [innerHTML] reads after the given string was assigned to it: the
    browser parses the string as HTML and serialises the outcome, so that a
    [&], [<] or [>] of the text, for one, comes back as a character
    reference. *)
Variable innerHTML : str -> str.

(** [updateTranscription(text)]: the cleaned text is assigned to the
    [innerHTML] of the measuring element, and [getLines] cuts what it reads
    back from there. *)
Definition updateTranscription (pg : page) (text : str) : page :=
  let textElements :=
    match transcriptionContainer pg with
    | None => initTranscriptionElement
    | Some els => els
    end in
  let text := replace_breaks text in
  let textSegments := getLines (innerHTML text) lineHeight in
  let textElements := map (fun _ => []) textElements in
  let textElements := show_segments 0 (segmentsToShow textSegments) textElements in
  {| transcriptionContainer := Some textElements;
     textSegments := textSegments;
     popup := popup pg |}.

(** The text built from one batch: every truthy [segment.text] followed by a
    space. *)
Fixpoint batch_text (segs : list Wire.segment) : str :=
  match segs with
  | [] => []
  | s :: rest =>
    match text s with
    | Some t => if bool_decide (t = []) then batch_text rest
                else t ++ space :: batch_text rest
    | None => batch_text rest
    end
  end.

Inductive request : Type :=
  | STOP
  | showWaitPopup (data : jsval)
  | transcript (data : inbound).

(** The [chrome.runtime.onMessage] listener. *)
Definition on_request (pg : page) (r : request) : page :=
  match r with
  | STOP =>
    {| transcriptionContainer := None; textSegments := textSegments pg;
       popup := popup pg |}
  | showWaitPopup data =>
    {| transcriptionContainer := transcriptionContainer pg;
       textSegments := textSegments pg; popup := Some (WaitTime data) |}
  | transcript Malformed =>
    {| transcriptionContainer := transcriptionContainer pg;
       textSegments := textSegments pg; popup := Some ErrorText |}
  | transcript (Parsed message) =>
    match data_segments message with
    | Some segs =>
      let text := batch_text segs in
      if has_content text then updateTranscription pg text else pg
    | None => pg
    end
  end.

Definition on_requests (pg : page) (rs : list request) : page :=
  fold_left on_request rs pg.

End Layout.

(** Following the words of the specification: [onSegments] appends each
    segment's text, joined by a single space and with line breaks replaced
    by spaces, to a transcript accumulated over all batches so far. *)
Definition spec_accumulated (batches : list (list Wire.segment)) : str :=
  replace_breaks (concat (map batch_text batches)).

End Renderer.

(** ** Sample sessions *)

Module Examples.
Import JsNum Wire Session.

Definition uid : string := "3f2a".

(** Automatic language detection, as the popup starts a capture. *)
Definition auto_detect : options :=
  {| opt_language := JNull; opt_task := JStr "transcribe";
     opt_modelSize := JStr "small"; opt_useVad := JBool true; currentTabId := 7 |}.

Definition loud : Resampler.f32array := [Finite (1 # 2)].
Definition silent : Resampler.f32array := [Finite 0; Finite (1 # 1000)].

Definition ready : event := onmessage (Parsed (ready_message uid (JStr "faster_whisper"))).
Definition busy : event := onmessage (Parsed (wait_message uid (JNum 2))).
Definition detected (lang : string) : event :=
  onmessage (Parsed (language_message uid (JStr lang) (JNum (9 # 10)))).

Definition hello : list segment := [Segment (Some (list_ascii_of_string "hello"))].

(** A message that reports a language and carries segments as well. *)
Definition language_and_segments : server_message :=
  ServerMessage (JStr uid) JUndefined JUndefined JUndefined (JStr "en") (JNum (9 # 10))
                (Some hello).

(** A box one word wide: the height grows by a line for every started group
    of four characters. *)
Definition narrow_box (t : str) : Z := 24 * (1 + Z.of_nat (length t - 1) / 4).

(** A box no text ever fills. *)
Definition wide_box (t : str) : Z := 24.

(** How a character of a text node is serialised. *)
Definition escaped (c : ascii) : str :=
  if Ascii.eqb c "&" then list_ascii_of_string "&amp;"
  else if Ascii.eqb c "<" then list_ascii_of_string "&lt;"
  else if Ascii.eqb c ">" then list_ascii_of_string "&gt;"
  else if Ascii.eqb c (ascii_of_nat 160) then list_ascii_of_string "&nbsp;"
  else [c].

(** The read-back of a string in which no [<] opens a tag and no [&] opens a
    character reference: it is parsed as one text node and serialised
    character by character. *)
Definition read_back (t : str) : str := flat_map escaped t.

Definition batch (s : string) : list segment := [Segment (Some (list_ascii_of_string s))].

Definition transcript_of (segs : list segment) : Renderer.request :=
  Renderer.transcript (Parsed (segments_message uid segs)).

End Examples.

(** ** Invariants of the renderer *)

Module Invariants.
Import Wire Renderer.

(** The words after the first, each behind its separating space. *)
Definition spaced (ws : list str) : str := concat (map (cons space) ws).

(** The text covered by the lines already cut, each with the space that
    followed it. *)
Definition closed (segs : list str) : str := concat (map (fun s => s ++ [space]) segs).

(** What the loop of [getLines] maintains once [done] is the text of the
    words read so far: [segment] is that text and a space, the lines cut so
    far followed by the line being filled make up the text, and [segmentLen]
    is where the line being filled starts. *)
Definition cut_invariant (st : lines_state) (done : str) : Prop :=
  exists cur,
    segment st = done ++ [space]
    /\ done = closed (segments st) ++ cur
    /\ segmentLen st = len (closed (segments st)).

(** The overlay, once created, has three visible elements. *)
Definition three_elements (pg : page) : Prop :=
  match transcriptionContainer pg with
  | Some els => length els = 3%nat
  | None => True
  end.

End Invariants.

(** ** Client identifier (options.js, [generateUUID]) *)

Module Uuid.
Import Wire.

(** The lower-case hexadecimal digit of a value below 16. *)
Definition hex_digit (v : Z) : ascii :=
  match v with
  | 0 => "0" | 1 => "1" | 2 => "2" | 3 => "3" | 4 => "4" | 5 => "5" | 6 => "6"
  | 7 => "7" | 8 => "8" | 9 => "9" | 10 => "a" | 11 => "b" | 12 => "c"
  | 13 => "d" | 14 => "e" | _ => "f"
  end%char.

Fixpoint hex_of_pos (fuel : nat) (v : Z) : str :=
  match fuel with
  | O => []
  | S fuel' =>
    if v <? 16 then [hex_digit v]
    else hex_of_pos fuel' (v / 16) ++ [hex_digit (v mod 16)]
  end.

(** [v.toString(16)] for an integer [v]: one digit below 16, otherwise the
    digits of the quotient first; a minus sign before a negative value. *)
Definition toString16 (v : Z) : str :=
  if v <? 0 then "-"%char :: hex_of_pos (S (Z.to_nat (- v))) (- v)
  else hex_of_pos (S (Z.to_nat v)) v.

(** [(Math.random() * 16) | 0] for a value of [Math.random], which lies in
    [0, 1): the product is below 16 and truncation is the floor. *)
Definition draw (random : Q) : Z := Qfloor (Qmult random 16).

(** The callback of [replace]: [c] is the matched character. *)
Definition replacement (c : ascii) (random : Q) : str :=
  let r := draw random in
  let v := if Ascii.eqb c "x" then r else Z.lor (Z.land r 3) 8 in
  toString16 v.

(** [template.replace(/[xy]/g, callback)], the [k]-th call of [Math.random]
    returning [random k]. *)
Fixpoint replace_xy (random : nat -> Q) (k : nat) (template : str) : str :=
  match template with
  | [] => []
  | c :: rest =>
    if Ascii.eqb c "x" || Ascii.eqb c "y"
    then replacement c (random k) ++ replace_xy random (S k) rest
    else c :: replace_xy random k rest
  end.

Definition template : str :=
  list_ascii_of_string "xxxxxxxx-xxxx-4xxx-yxxx-xxxxxxxxxxxx".

Definition generateUUID (random : nat -> Q) : str := replace_xy random 0 template.

(** What a place of the template allows in the result. *)
Definition is_hex (c : ascii) : bool :=
  existsb (Ascii.eqb c) (list_ascii_of_string "0123456789abcdef").

Definition fills (t c : ascii) : bool :=
  if Ascii.eqb t "x" then is_hex c
  else if Ascii.eqb t "y" then existsb (Ascii.eqb c) (list_ascii_of_string "89ab")
  else Ascii.eqb t c.

End Uuid.

(** ** Dragging the overlay (content script, [makeDraggable]) *)

Module Drag.

(** The variables of [makeDraggable]; [listening] tells whether the
    [mousemove] and [mouseup] listeners are attached to the document. *)
Record state : Type := State { x : Z; y : Z; listening : bool }.

Definition initial : state := {| x := 0; y := 0; listening := false |}.

(** A mouse event as the handlers read it.  [mousedown] is dispatched on the
    element, with the button and whether the target is a [BUTTON];
    [mousemove] comes with the element's [offsetLeft] and [offsetTop] at that
    moment, which the handler reads from the layout. *)
Inductive event : Type :=
  | mousedown (button : Z) (onButton : bool) (clientX clientY : Z)
  | mousemove (clientX clientY : Z) (offsetLeft offsetTop : Z)
  | mouseup.

(** The new [style.left] and [style.top], in pixels. *)
Record placement : Type := Placement { left : Z; top : Z }.

Definition handle (st : state) (e : event) : state * option placement :=
  match e with
  | mousedown button onButton clientX clientY =>
    if negb (button =? 0) then (st, None)
    else if onButton then (st, None)
    else ({| x := clientX; y := clientY; listening := true |}, None)
  | mousemove clientX clientY offsetLeft offsetTop =>
    if listening st then
      let dx := clientX - x st in
      let dy := clientY - y st in
      ({| x := clientX; y := clientY; listening := true |},
       Some {| left := offsetLeft + dx; top := offsetTop + dy |})
    else (st, None)
  | mouseup =>
    ({| x := x st; y := y st; listening := false |}, None)
  end.

Fixpoint run (st : state) (es : list event) : state * list placement :=
  match es with
  | [] => (st, [])
  | e :: es' =>
    let '(st1, p) := handle st e in
    let '(st2, ps) := run st1 es' in
    (st2, match p with Some p => p :: ps | None => ps end)
  end.

(** A run of [mousemove] events in which the layout gives back, at each
    event, the position written at the one before; [l], [t] is the position
    before the first. *)
Fixpoint follows (l t : Z) (st : state) (es : list event) : Prop :=
  match es with
  | [] => True
  | mousemove clientX clientY offsetLeft offsetTop :: es' =>
    offsetLeft = l /\ offsetTop = t
    /\ follows (l + (clientX - x st)) (t + (clientY - y st))
               {| x := clientX; y := clientY; listening := true |} es'
  | _ :: _ => False
  end.

(** Where a move puts the element when it keeps to the pointer: as far from
    [l], [t] as the pointer is from where [st] recorded it. *)
Definition track (l t : Z) (st : state) (e : event) : placement :=
  match e with
  | mousemove clientX clientY _ _ =>
    {| left := l + (clientX - x st); top := t + (clientY - y st) |}
  | _ => {| left := l; top := t |}
  end.

End Drag.

(** ** Vocabulary for the properties *)

Module ResamplerWords.
Import JsNum.

(** A finite sample between [lo] and [hi]. *)
Definition within (lo hi : Q) (x : number) : Prop :=
  match x with
  | Finite q => (lo <= q /\ q <= hi)%Q
  | _ => False
  end.

Definition is_finite (x : number) : Prop :=
  match x with
  | Finite _ => True
  | _ => False
  end.

(** Two finite samples of equal value. *)
Definition same_sample (x y : number) : Prop :=
  match x, y with
  | Finite p, Finite q => Qeq p q
  | _, _ => False
  end.

End ResamplerWords.

Module SessionWords.
Import Wire Session.
(** A message the uid test turns away. *)
Definition is_foreign (uuid : string) (e : event) : bool :=
  match e with
  | onmessage (Parsed data) => negb (is_string (data_uid data) uuid)
  | _ => false
  end.

Definition is_foreign_notice (x : effect) : bool :=
  match x with
  | UpdateStatus server DifferentClient _ => true
  | _ => false
  end.

(** A message that gets as far as the [SERVER_READY] test and passes its
    second half. *)
Definition announces_ready (uuid : string) (e : event) : bool :=
  match e with
  | onmessage (Parsed data) =>
    is_string (data_uid data) uuid
    && negb (is_string (data_status data) "WAIT")
    && is_string (data_message data) "SERVER_READY"
  | _ => false
  end.

Definition is_ready_notice (x : effect) : bool :=
  match x with
  | UpdateStatus connection ServerReady _ => true
  | _ => false
  end.

Definition is_language_notice (x : effect) : bool :=
  match x with
  | RuntimeSendMessage (updateSelectedLanguage _) => true
  | _ => false
  end.

Definition is_text_frame (x : effect) : bool :=
  match x with
  | SocketSend (TextFrame _) => true
  | _ => false
  end.

Definition is_onopen (e : event) : bool :=
  match e with
  | onopen => true
  | _ => false
  end.

Definition is_open (r : ready_state) : bool :=
  match r with
  | OPEN => true
  | _ => false
  end.

(** The sample arrays sent, in order. *)
Definition sent_audio (out : list effect) : list Resampler.f32array :=
  omap (fun x => match x with
                 | SocketSend (BinaryFrame samples) => Some samples
                 | _ => None
                 end) out.

(** The blocks delivered by the capture source, in order. *)
Definition captured (es : list event) : list Resampler.f32array :=
  omap (fun e => match e with
                 | onaudioprocess inputData => Some inputData
                 | _ => None
                 end) es.

(** The messages forwarded to the tab as transcripts, in order. *)
Definition forwarded (out : list effect) : list server_message :=
  omap (fun x => match x with
                 | SendMessageToTab _ (transcript data) => Some data
                 | _ => None
                 end) out.

(** The messages received that parse to an object, in order. *)
Definition received (es : list event) : list server_message :=
  omap (fun e => match e with
                 | onmessage (Parsed data) => Some data
                 | _ => None
                 end) es.
End SessionWords.

Module RendererWords.
Import Wire Renderer.
(** A segment whose text [trim] does not empty. *)
Definition segment_has_content (s : Wire.segment) : bool :=
  match text s with
  | Some t => has_content t
  | None => false
  end.

Definition is_break (c : ascii) : bool := Ascii.eqb c CR || Ascii.eqb c LF.

(** The contents [getLines] gives to the measuring element, one after each
    word: [seg] extended by the words read so far, each followed by a
    space. *)
Fixpoint measured (seg : str) (ws : list str) : list str :=
  match ws with
  | [] => []
  | w :: ws' => (seg ++ w ++ [space]) :: measured (seg ++ w ++ [space]) ws'
  end.

(** The text fits on one line: none of the contents measured while it is
    cut is higher than one line. *)
Definition fits_one_line (offsetHeight : str -> Z) (lineHeight : Z) (t : str) : Prop :=
  Forall (fun m => JsNum.gt_int (JsNum.div_int (offsetHeight m) lineHeight) 1 = false)
         (measured [] (split t)).
End RendererWords.

(** * Properties *)

(** ** Resampler *)

Module ResamplerFacts.
Import JsNum Resampler.

Lemma length_set (a : f32array) (i : Z) (v : number) :
  length (set a i v) = length a.
Proof.
  unfold set. destruct (i <? 0); [reflexivity | apply length_insert].
Qed.

Lemma lookup_set_ne (a : f32array) (i : Z) (v : number) (k : nat) :
  i <> Z.of_nat k -> set a i v !! k = a !! k.
Proof.
  intros Hne. unfold set. destruct (Z.ltb_spec i 0); [reflexivity |].
  apply list_lookup_insert_ne. lia.
Qed.

Lemma lookup_set_eq (a : f32array) (k : nat) (v : number) :
  (k < length a)%nat -> set a (Z.of_nat k) v !! k = Some v.
Proof.
  intros Hk. unfold set. destruct (Z.ltb_spec (Z.of_nat k) 0); [lia |].
  rewrite Nat2Z.id. apply list_lookup_insert_eq. exact Hk.
Qed.

Section Loop.
Variable f : Z -> number.

Lemma length_loop (idxs : list Z) (out : f32array) :
  length (fold_left (fun out i => set out i (f i)) idxs out) = length out.
Proof.
  revert out. induction idxs as [| i idxs IH]; intros out; simpl; [reflexivity |].
  rewrite IH. apply length_set.
Qed.

Lemma lookup_loop_untouched (idxs : list Z) (out : f32array) (k : nat) :
  Forall (fun i => i <> Z.of_nat k) idxs ->
  fold_left (fun out i => set out i (f i)) idxs out !! k = out !! k.
Proof.
  revert out. induction idxs as [| i idxs IH]; intros out Hall; simpl; [reflexivity |].
  inversion Hall as [| ? ? Hi Hidxs]; subst.
  rewrite IH by exact Hidxs. apply lookup_set_ne. exact Hi.
Qed.
End Loop.

Lemma length_resample_at (data : f32array) (tl : Z) :
  length (resample_at data tl) = Z.to_nat tl.
Proof.
  unfold resample_at. rewrite length_loop, !length_set. apply length_replicate.
Qed.

Lemma interior_indices (tl : Z) (k : nat) :
  Z.of_nat k = 0 \/ Z.of_nat k = tl - 1 ->
  Forall (fun i => i <> Z.of_nat k) (seqZ 1 (tl - 2)).
Proof.
  intros Hk. apply Forall_forall. intros i Hi.
  apply elem_of_seqZ in Hi. lia.
Qed.

(** With at least two output cells the first one holds [data[0]]. *)
Lemma resample_at_first (data : f32array) (tl : Z) :
  2 <= tl -> resample_at data tl !! 0%nat = Some (to_number (get data 0)).
Proof.
  intros Htl. unfold resample_at.
  rewrite lookup_loop_untouched by (apply interior_indices; left; reflexivity).
  rewrite lookup_set_ne by (simpl; lia).
  apply (lookup_set_eq _ 0%nat). rewrite length_replicate. lia.
Qed.

(** With at least one output cell the last one holds [data[data.length - 1]]. *)
Lemma resample_at_last (data : f32array) (tl : Z) :
  1 <= tl ->
  last (resample_at data tl)
  = Some (to_number (get data (Z.of_nat (length data) - 1))).
Proof.
  intros Htl. rewrite last_lookup, length_resample_at. unfold resample_at.
  assert (Hk : Z.of_nat (Nat.pred (Z.to_nat tl)) = tl - 1) by lia.
  rewrite lookup_loop_untouched by (apply interior_indices; right; exact Hk).
  rewrite <- Hk. apply lookup_set_eq.
  rewrite length_set, length_replicate. lia.
Qed.

Lemma get_first (data : f32array) : get data 0 = data !! 0%nat.
Proof. reflexivity. Qed.

Lemma get_last (data : f32array) :
  get data (Z.of_nat (length data) - 1) = last data.
Proof.
  unfold get. destruct data as [| x data]; [reflexivity |].
  destruct (Z.ltb_spec (Z.of_nat (length (x :: data)) - 1) 0) as [H | H];
    [simpl length in H; lia |].
  rewrite last_lookup. f_equal. simpl length. lia.
Qed.

Lemma targetLength_empty (origSampleRate : positive) :
  targetLength 0 origSampleRate = 0.
Proof.
  unfold targetLength, round.
  set (r := Qdiv _ _).
  assert (H : Qeq (Qplus (Qmult (inject_Z (Z.of_nat 0)) r) (1 # 2)) (1 # 2)).
  { change (inject_Z (Z.of_nat 0)) with (0 # 1)%Q. ring. }
  rewrite H. reflexivity.
Qed.

Lemma nonempty_output_nonempty_input (data : f32array) (origSampleRate : positive) :
  1 <= targetLength (length data) origSampleRate -> data <> [].
Proof.
  intros H ->. simpl in H. rewrite targetLength_empty in H. lia.
Qed.

(** When the computed length is 1 the two endpoint writes hit the same cell
    and the loop has no iteration: the last input sample is all there is. *)
Lemma resample_at_one (data : f32array) :
  resample_at data 1 = [to_number (last data)].
Proof.
  unfold resample_at. simpl. rewrite get_last. reflexivity.
Qed.

(** C8, as amended: whenever the output is not empty its last sample is the
    last input sample, and whenever the output has at least two samples its
    first sample is the first input sample. *)
Theorem resample_endpoints (data : f32array) (origSampleRate : positive) :
  ((1 <= length (resampleTo16kHZ data origSampleRate))%nat ->
   last (resampleTo16kHZ data origSampleRate) = last data)
  /\ ((2 <= length (resampleTo16kHZ data origSampleRate))%nat ->
      resampleTo16kHZ data origSampleRate !! 0%nat = data !! 0%nat).
Proof.
  unfold resampleTo16kHZ. rewrite length_resample_at.
  split; intros Hlen;
    assert (Hne : data <> [])
      by (apply (nonempty_output_nonempty_input _ origSampleRate); lia).
  - rewrite resample_at_last by lia. rewrite get_last.
    destruct (last data) as [y |] eqn:Hlast; [reflexivity |].
    apply last_None in Hlast. congruence.
  - rewrite resample_at_first by lia. rewrite get_first.
    destruct data as [| x data]; [congruence | reflexivity].
Qed.

Lemma resample_endpoints_witness :
  let data := map (fun z => Finite (inject_Z z)) [1; 2; 3; 4; 5; 6; 7; 8; 9] in
  (2 <= length (resampleTo16kHZ data 44100))%nat
  /\ last (resampleTo16kHZ data 44100) = last data
  /\ resampleTo16kHZ data 44100 !! 0%nat = data !! 0%nat.
Proof.
  intros data.
  assert (H : (2 <= length (resampleTo16kHZ data 44100))%nat) by (vm_compute; lia).
  split; [exact H |]. split.
  - apply (proj1 (resample_endpoints data 44100)). lia.
  - apply (proj2 (resample_endpoints data 44100)). exact H.
Defined.

(** C8 as stated fails: two samples at 44.1 kHz give one output sample, and
    it is the last input sample, not the first. *)
Lemma resample_first_endpoint_overwritten :
  resampleTo16kHZ [Finite 1; Finite 2] 44100 = [Finite 2]
  /\ resampleTo16kHZ [Finite 1; Finite 2] 44100 !! 0%nat
     <> [Finite 1; Finite 2] !! 0%nat.
Proof.
  split; [reflexivity |]. vm_compute. discriminate.
Qed.

(** C9, as amended: the function returns an array of the computed length for
    every input; an empty input gives an empty output, the divisor being
    [-1] there; nothing guards an output of length 1, where the spring factor
    is the non-finite result of a division by zero, unused because the loop
    does not run, and the output is the last input sample alone. *)
Theorem resample_degenerate (origSampleRate : positive) :
  (forall data,
     length (resampleTo16kHZ data origSampleRate)
     = Z.to_nat (targetLength (length data) origSampleRate))
  /\ resampleTo16kHZ [] origSampleRate = []
  /\ (exists q, springFactor 0 (targetLength 0 origSampleRate) = Finite q /\ Qeq q 1)
  /\ (forall data,
        targetLength (length data) origSampleRate = 1 ->
        (springFactor (length data) 1 = PosInf \/ springFactor (length data) 1 = NaN)
        /\ resampleTo16kHZ data origSampleRate = [to_number (last data)]).
Proof.
  split; [| split; [| split]].
  - intros data. apply length_resample_at.
  - unfold resampleTo16kHZ. simpl length. rewrite targetLength_empty. reflexivity.
  - rewrite targetLength_empty. eexists. split; [reflexivity |]. reflexivity.
  - intros data Htl. split.
    + assert (Hne : data <> [])
        by (apply (nonempty_output_nonempty_input _ origSampleRate); lia).
      unfold springFactor, div_int. simpl (1 - 1 =? 0).
      destruct data as [| x data]; [congruence |].
      destruct (Z.compare_spec (Z.of_nat (length (x :: data)) - 1) 0) as [H | H | H];
        [right; reflexivity | simpl length in H; lia | left; reflexivity].
    + unfold resampleTo16kHZ. rewrite Htl. apply resample_at_one.
Qed.

Lemma resample_degenerate_witness :
  targetLength (length [Finite 1]) 16000 = 1
  /\ resampleTo16kHZ [Finite 1] 16000 = [Finite 1].
Proof.
  split; [reflexivity |].
  apply (proj2 (proj2 (proj2 (resample_degenerate 16000))) [Finite 1]).
  reflexivity.
Defined.

(** C9 as stated fails: one sample at 16 kHz gives an output of length 1, and
    the divisor [targetLength - 1] of the spring factor is zero. *)
Lemma resample_length_one_unguarded :
  (length (resampleTo16kHZ [Finite 1] 16000) <= 1)%nat
  /\ targetLength (length [Finite 1]) 16000 - 1 = 0
  /\ springFactor (length [Finite 1]) (targetLength (length [Finite 1]) 16000) = NaN.
Proof.
  split; [vm_compute; lia |]. split; reflexivity.
Qed.

End ResamplerFacts.

(** ** Streaming session *)

Module SessionFacts.
Import JsNum Wire Session.

Lemma audio_frames_app (out1 out2 : list effect) :
  audio_frames (out1 ++ out2) = audio_frames out1 ++ audio_frames out2.
Proof. apply List.filter_app. Qed.

Lemma truthy_not_null (v : jsval) : truthy v = true -> is_null v = false.
Proof. destruct v; simpl; congruence. Qed.

Section Handlers.
Variable uuid : string.
Variable opts : options.
Variable sampleRate : positive.

Abbreviation step := (step uuid opts sampleRate).
Abbreviation run := (run uuid opts sampleRate).
Abbreviation handle_message := (handle_message uuid opts).
Abbreviation handle_audio := (handle_audio sampleRate).

(** Case analysis on the chain of tests in [handle_message]. *)
Ltac message_cases :=
  unfold Session.handle_message;
  repeat match goal with
         | |- context [match ?d with Malformed => _ | Parsed _ => _ end] => destruct d
         | |- context [if ?b then _ else _] => destruct b eqn:?
         | |- context [match data_segments ?m with Some _ => _ | None => _ end] =>
             destruct (data_segments m) eqn:?
         | |- context [match last ?l with Some _ => _ | None => _ end] =>
             destruct (last l) eqn:?
         end.

Lemma run_app (st : state) (es1 es2 : list event) :
  run st (es1 ++ es2)
  = (fst (run (fst (run st es1)) es2),
     snd (run st es1) ++ snd (run (fst (run st es1)) es2)).
Proof.
  revert st. induction es1 as [| e es1 IH]; intros st; simpl.
  - destruct (run st es2); reflexivity.
  - destruct (step st e) as [st1 out1]. rewrite IH.
    destruct (run st1 es1) as [st2 out2]. simpl.
    rewrite app_assoc. reflexivity.
Qed.

Lemma run_cons (st : state) (e : event) (es : list event) :
  run st (e :: es)
  = (fst (run (fst (step st e)) es),
     snd (step st e) ++ snd (run (fst (step st e)) es)).
Proof.
  simpl. destruct (step st e) as [st1 out1]. simpl.
  destruct (run st1 es) as [st2 out2]. reflexivity.
Qed.

(** *** Readiness *)

(** Nothing ever resets [isServerReady]. *)
Lemma step_ready_stays (st : state) (e : event) :
  isServerReady st = true -> isServerReady (fst (step st e)) = true.
Proof.
  intros Hr. destruct e as [| code reason | | d | inputData]; simpl; try exact Hr.
  - message_cases; simpl; congruence.
  - unfold Session.handle_audio.
    destruct (negb (isServerReady st)); [exact Hr |].
    destruct (hasAudio inputData); exact Hr.
Qed.

Lemma run_ready_stays (st : state) (es : list event) :
  isServerReady st = true -> isServerReady (fst (run st es)) = true.
Proof.
  revert st. induction es as [| e es IH]; intros st Hr; [exact Hr |].
  rewrite run_cons. simpl. apply IH, step_ready_stays, Hr.
Qed.

Lemma run_not_ready_before (st : state) (es : list event) :
  isServerReady (fst (run st es)) = false -> isServerReady st = false.
Proof.
  intros Hf. destruct (isServerReady st) eqn:Hr; [| reflexivity].
  rewrite run_ready_stays in Hf by exact Hr. discriminate.
Qed.

Lemma handle_audio_not_ready (st : state) (inputData : Resampler.f32array) :
  isServerReady st = false -> handle_audio st inputData = (st, []).
Proof.
  intros Hr. unfold Session.handle_audio. rewrite Hr. reflexivity.
Qed.

Lemma handle_message_no_frame (st : state) (d : inbound) :
  audio_frames (snd (handle_message st d)) = [].
Proof.
  message_cases; reflexivity.
Qed.

Lemma step_not_ready_no_frame (st : state) (e : event) :
  isServerReady st = false -> audio_frames (snd (step st e)) = [].
Proof.
  intros Hr. destruct e as [| code reason | | d | inputData]; simpl; try reflexivity.
  - apply handle_message_no_frame.
  - rewrite handle_audio_not_ready by exact Hr. reflexivity.
Qed.

Lemma run_not_ready (st : state) (es : list event) :
  isServerReady (fst (run st es)) = false ->
  audio_frames (snd (run st es)) = []
  /\ run st es = run st (List.filter (fun e => negb (is_audio_event e)) es).
Proof.
  revert st. induction es as [| e es IH]; intros st Hf; [split; reflexivity |].
  rewrite run_cons in Hf. simpl in Hf.
  destruct (IH _ Hf) as [IHframes IHrun].
  assert (Hst : isServerReady st = false).
  { destruct (isServerReady st) eqn:Hr; [| reflexivity].
    apply run_not_ready_before in Hf.
    rewrite step_ready_stays in Hf by exact Hr. discriminate. }
  split.
  - rewrite run_cons. simpl. rewrite audio_frames_app, IHframes, app_nil_r.
    apply step_not_ready_no_frame, Hst.
  - destruct e as [| code reason | | d | inputData];
      try (simpl List.filter; rewrite !run_cons, IHrun; reflexivity).
    change (List.filter _ (onaudioprocess inputData :: es))
      with (List.filter (fun e => negb (is_audio_event e)) es).
    simpl Session.step in IHrun. rewrite run_cons. simpl Session.step.
    rewrite handle_audio_not_ready in * by exact Hst. simpl.
    simpl in IHrun. rewrite <- IHrun. destruct (run st es); reflexivity.
Qed.

(** C1: while [SERVER_READY] has not been processed no binary frame has been
    sent, an audio block changes nothing and produces nothing, and what
    happens later is the same as if the blocks delivered so far had never
    arrived. *)
Theorem audio_before_ready_dropped (es1 es2 : list event) :
  isServerReady (fst (run (initial opts) es1)) = false ->
  audio_frames (snd (run (initial opts) es1)) = []
  /\ (forall inputData,
        handle_audio (fst (run (initial opts) es1)) inputData
        = (fst (run (initial opts) es1), []))
  /\ run (initial opts) (es1 ++ es2)
     = run (initial opts)
           (List.filter (fun e => negb (is_audio_event e)) es1 ++ es2).
Proof.
  intros Hf. destruct (run_not_ready _ _ Hf) as [Hframes Hrun].
  split; [exact Hframes |]. split.
  - intros inputData. apply handle_audio_not_ready, Hf.
  - rewrite !run_app, <- Hrun. reflexivity.
Qed.

(** C2, as amended: once the server is ready, a block is resampled and sent
    as exactly one binary frame when it holds a sample louder than 0.01 and
    the socket is open; otherwise no frame is sent.  The session state is
    left as it was. *)
Theorem audio_after_ready (st : state) (inputData : Resampler.f32array) :
  isServerReady st = true ->
  fst (handle_audio st inputData) = st
  /\ audio_frames (snd (handle_audio st inputData))
     = if hasAudio inputData
          && match readyState st with OPEN => true | _ => false end
       then [SocketSend (BinaryFrame (Resampler.resampleTo16kHZ inputData sampleRate))]
       else [].
Proof.
  intros Hr. unfold Session.handle_audio. rewrite Hr. simpl.
  destruct (hasAudio inputData); [| split; reflexivity].
  destruct (readyState st); split; reflexivity.
Qed.

(** *** Language *)

Lemma step_language_fixed (st : state) (e : event) :
  is_null (language st) = false -> language (fst (step st e)) = language st.
Proof.
  intros Hl. destruct e as [| code reason | | d | inputData]; simpl; try reflexivity.
  - message_cases; simpl; try reflexivity.
    rewrite Hl in *. discriminate.
  - unfold Session.handle_audio.
    destruct (negb (isServerReady st)); [reflexivity |].
    destruct (hasAudio inputData); reflexivity.
Qed.

Lemma run_language_fixed (st : state) (es : list event) :
  is_null (language st) = false -> language (fst (run st es)) = language st.
Proof.
  revert st. induction es as [| e es IH]; intros st Hl; [reflexivity |].
  rewrite run_cons. simpl. rewrite IH; rewrite step_language_fixed by exact Hl;
    [reflexivity | exact Hl].
Qed.

(** A callback either keeps the language or sets it to a value that is not
    [null]. *)
Lemma step_language_change (st : state) (e : event) :
  language (fst (step st e)) = language st
  \/ is_null (language (fst (step st e))) = false.
Proof.
  destruct e as [| code reason | | d | inputData]; simpl; try (left; reflexivity).
  - message_cases; simpl; try (left; reflexivity).
    right. apply truthy_not_null.
    match goal with H : (_ && _) = true |- _ => apply andb_prop in H; apply H end.
  - left. unfold Session.handle_audio.
    destruct (negb (isServerReady st)); [reflexivity |].
    destruct (hasAudio inputData); reflexivity.
Qed.

Lemma run_language_change (st : state) (es : list event) :
  language (fst (run st es)) = language st
  \/ is_null (language (fst (run st es))) = false.
Proof.
  revert st. induction es as [| e es IH]; intros st; [left; reflexivity |].
  rewrite run_cons. simpl.
  destruct (step_language_change st e) as [Hsame | Hset].
  - rewrite <- Hsame. apply IH.
  - right. rewrite run_language_fixed by exact Hset. exact Hset.
Qed.

(** C5: over any sequence of callbacks the language changes at most once,
    and a message that reaches the language test with a detected language
    while the language is [null] fixes it for the rest of the session,
    whatever later messages carry. *)
Theorem language_resolved_once (st : state) :
  (forall es1 es2,
     language (fst (run st es1)) <> language st ->
     language (fst (run st (es1 ++ es2))) = language (fst (run st es1)))
  /\ (forall data es,
        language st = JNull ->
        is_string (data_uid data) uuid = true ->
        is_string (data_status data) "WAIT" = false ->
        negb (isServerReady st) && is_string (data_message data) "SERVER_READY" = false ->
        truthy (data_language data) = true ->
        language (fst (run st (onmessage (Parsed data) :: es))) = data_language data).
Proof.
  split.
  - intros es1 es2 Hchanged. rewrite run_app. simpl.
    apply run_language_fixed.
    destruct (run_language_change st es1) as [Hsame | Hset]; [congruence | exact Hset].
  - intros data es Hnull Huid Hwait Hready Hlang.
    rewrite run_cons. simpl. unfold Session.handle_message.
    rewrite Huid, Hwait, Hready, Hnull, Hlang. simpl.
    rewrite run_language_fixed; [reflexivity |].
    simpl. apply truthy_not_null, Hlang.
Qed.

(** C6, as amended: a [WAIT] message addressed to the session emits exactly
    one server-busy status carrying the message, asks the tab to show the
    wait popup, requests that capture stop, and sends nothing on the socket;
    readiness, language and socket state are left as they were, so audio
    blocks are treated afterwards exactly as before. *)
Theorem wait_message_handled (st : state) (data : server_message) :
  is_string (data_uid data) uuid = true ->
  is_string (data_status data) "WAIT" = true ->
  fst (handle_message st (Parsed data)) = st
  /\ snd (handle_message st (Parsed data))
     = [ UpdateStatus server (ServerBusy (data_message data)) false;
         SendMessageToTab (currentTabId opts) (showWaitPopup (data_message data));
         RuntimeSendMessage (toggleCaptureButtons false);
         RuntimeSendMessage stopCapture ]
  /\ List.filter is_busy_event (snd (handle_message st (Parsed data)))
     = [ UpdateStatus server (ServerBusy (data_message data)) false ]
  /\ audio_frames (snd (handle_message st (Parsed data))) = []
  /\ (forall inputData,
        handle_audio (fst (handle_message st (Parsed data))) inputData
        = handle_audio st inputData).
Proof.
  intros Huid Hwait. unfold Session.handle_message. rewrite Huid, Hwait. simpl.
  repeat split; reflexivity.
Qed.

(** C10: a message that carries a detected language while the language is
    [null] never has its segments forwarded to the tab; when it reaches the
    language test, the language is set and the handler returns there. *)
Theorem language_branch_discards_segments (st : state) (data : server_message) :
  language st = JNull ->
  truthy (data_language data) = true ->
  List.filter is_transcript_forward (snd (handle_message st (Parsed data))) = []
  /\ (is_string (data_uid data) uuid = true ->
      is_string (data_status data) "WAIT" = false ->
      negb (isServerReady st) && is_string (data_message data) "SERVER_READY" = false ->
      handle_message st (Parsed data)
      = ({| isServerReady := isServerReady st; language := data_language data;
            readyState := readyState st |},
         [ UpdateStatus server
             (DetectedLanguage (data_language data) (data_language_prob data)) false;
           RuntimeSendMessage (updateSelectedLanguage (data_language data)) ])).
Proof.
  intros Hnull Hlang. split.
  - unfold Session.handle_message. rewrite Hnull, Hlang. simpl.
    destruct (negb (is_string (data_uid data) uuid)); [reflexivity |].
    destruct (is_string (data_status data) "WAIT"); [reflexivity |].
    destruct (negb (isServerReady st) && is_string (data_message data) "SERVER_READY");
      reflexivity.
  - intros Huid Hwait Hready. unfold Session.handle_message.
    rewrite Huid, Hwait, Hready, Hnull, Hlang. reflexivity.
Qed.

End Handlers.

Import Examples.

Lemma audio_before_ready_dropped_witness :
  let es1 := [onopen; onaudioprocess loud; detected "en"; onaudioprocess loud] in
  let es2 := [ready; onaudioprocess loud] in
  isServerReady (fst (run uid auto_detect 44100 (initial auto_detect) es1)) = false
  /\ audio_frames (snd (run uid auto_detect 44100 (initial auto_detect) es1)) = []
  /\ run uid auto_detect 44100 (initial auto_detect) (es1 ++ es2)
     = run uid auto_detect 44100 (initial auto_detect)
           ([onopen; detected "en"] ++ es2).
Proof.
  intros es1 es2.
  assert (H : isServerReady (fst (run uid auto_detect 44100 (initial auto_detect) es1))
              = false) by reflexivity.
  split; [exact H |].
  destruct (audio_before_ready_dropped uid auto_detect 44100 es1 es2 H)
    as [Hframes [_ Hrun]].
  split; [exact Hframes | exact Hrun].
Defined.

Lemma audio_after_ready_witness :
  let st := fst (run uid auto_detect 44100 (initial auto_detect) [onopen; ready]) in
  isServerReady st = true
  /\ audio_frames (snd (handle_audio 44100 st loud))
     = [SocketSend (BinaryFrame (Resampler.resampleTo16kHZ loud 44100))].
Proof.
  intros st. split; [reflexivity |].
  apply (proj2 (audio_after_ready 44100 st loud eq_refl)).
Defined.

(** C2 as stated fails: the server is ready and the socket open, yet a block
    without a sample louder than 0.01 produces no frame. *)
Lemma silent_block_not_sent :
  let st := fst (run uid auto_detect 44100 (initial auto_detect) [onopen; ready]) in
  isServerReady st = true
  /\ readyState st = OPEN
  /\ audio_frames (snd (handle_audio 44100 st silent)) = [].
Proof.
  repeat split; reflexivity.
Qed.

Lemma language_resolved_once_witness :
  language (initial auto_detect) = JNull
  /\ language (fst (run uid auto_detect 44100 (initial auto_detect)
                       [detected "en"; ready; detected "fr"]))
     = JStr "en".
Proof.
  split; [reflexivity |].
  apply (proj2 (language_resolved_once uid auto_detect 44100 (initial auto_detect))
               (language_message uid (JStr "en") (JNum (9 # 10)))
               [ready; detected "fr"]);
    reflexivity.
Defined.

Lemma wait_message_handled_witness :
  let st := fst (run uid auto_detect 44100 (initial auto_detect) [onopen]) in
  let data := wait_message uid (JNum 2) in
  is_string (data_uid data) uid = true
  /\ is_string (data_status data) "WAIT" = true
  /\ List.filter is_busy_event (snd (handle_message uid auto_detect st (Parsed data)))
     = [UpdateStatus server (ServerBusy (JNum 2)) false].
Proof.
  intros st data. split; [reflexivity |]. split; [reflexivity |].
  apply (wait_message_handled uid auto_detect 44100 st data); reflexivity.
Defined.

(** C6 as stated fails: the server was ready when [WAIT] arrived, and the
    next audible block is still sent. *)
Lemma audio_sent_after_wait :
  let st := fst (run uid auto_detect 16000 (initial auto_detect) [onopen; ready; busy]) in
  audio_frames (snd (step uid auto_detect 16000 st (onaudioprocess loud)))
  = [SocketSend (BinaryFrame loud)].
Proof.
  reflexivity.
Qed.

Lemma language_branch_discards_segments_witness :
  let st := fst (run uid auto_detect 44100 (initial auto_detect) [onopen; ready]) in
  language st = JNull
  /\ truthy (data_language language_and_segments) = true
  /\ data_segments language_and_segments = Some hello
  /\ List.filter is_transcript_forward
       (snd (handle_message uid auto_detect st (Parsed language_and_segments))) = []
  /\ language (fst (handle_message uid auto_detect st (Parsed language_and_segments)))
     = JStr "en".
Proof.
  intros st.
  destruct (language_branch_discards_segments uid auto_detect st language_and_segments
              eq_refl eq_refl) as [Hnone Hset].
  split; [reflexivity |]. split; [reflexivity |]. split; [reflexivity |].
  split; [exact Hnone |].
  rewrite (Hset eq_refl eq_refl eq_refl). reflexivity.
Defined.

End SessionFacts.

(** ** Transcript renderer *)

Module RendererFacts.
Import JsNum Wire Renderer Invariants.

(** *** Strings *)

Lemma split_nonempty (s : str) : split s <> [].
Proof.
  destruct s as [| c s]; simpl; [discriminate |].
  destruct (Ascii.eqb c space); [discriminate |].
  destruct (split s); discriminate.
Qed.

Lemma join_cons (p : str) (rest : list str) :
  rest <> [] -> join (p :: rest) = p ++ space :: join rest.
Proof.
  destruct rest; [congruence | reflexivity].
Qed.

Lemma join_split (s : str) : join (split s) = s.
Proof.
  induction s as [| c s IH]; [reflexivity |].
  simpl split. destruct (Ascii.eqb_spec c space) as [-> | Hc].
  - rewrite join_cons by apply split_nonempty. rewrite IH. reflexivity.
  - pose proof (split_nonempty s) as Hne.
    destruct (split s) as [| w ws]; [congruence |].
    destruct ws as [| x ws].
    + simpl in *. congruence.
    + rewrite join_cons by discriminate.
      rewrite join_cons in IH by discriminate.
      rewrite <- IH. reflexivity.
Qed.

Lemma join_spaced (w : str) (ws : list str) : join (w :: ws) = w ++ spaced ws.
Proof.
  revert w. induction ws as [| x ws IH]; intros w.
  - simpl. rewrite app_nil_r. reflexivity.
  - rewrite join_cons by discriminate. rewrite IH. reflexivity.
Qed.

Lemma closed_snoc (segs : list str) (s : str) :
  closed (segs ++ [s]) = closed segs ++ s ++ [space].
Proof.
  unfold closed. rewrite map_app, concat_app. simpl. rewrite app_nil_r. reflexivity.
Qed.

Lemma join_snoc (segs : list str) (cur : str) :
  join (segs ++ [cur]) = closed segs ++ cur.
Proof.
  induction segs as [| s segs IH]; [reflexivity |].
  change ((s :: segs) ++ [cur]) with (s :: (segs ++ [cur])).
  rewrite join_cons by (destruct segs; discriminate).
  rewrite IH. unfold closed. simpl. rewrite <- !app_assoc. reflexivity.
Qed.

Lemma len_app (s t : str) : len (s ++ t) = len s + len t.
Proof. unfold len. rewrite length_app. lia. Qed.

(** Cutting out the middle of three pieces. *)
Lemma substring_middle (p cur rest : str) :
  substring (p ++ cur ++ rest) (len p) (len p + len cur) = cur.
Proof.
  unfold substring, len. rewrite !length_app.
  replace (Z.to_nat _) with (length cur) by lia.
  replace (Z.to_nat _) with (length p) by lia.
  rewrite drop_app_length. apply take_app_length.
Qed.

(** *** The loop of [getLines] *)

Section Layout.
Variable offsetHeight : str -> Z.
Variable lineHeightStyle : option Z.
Variable innerHTML : str -> str.

Abbreviation lines_step := (lines_step offsetHeight).
Abbreviation getLines := (getLines offsetHeight).

Lemma cut_invariant_step (lineHeight : Z) (st : lines_state) (done word : str) :
  cut_invariant st done ->
  cut_invariant (lines_step lineHeight st word) (done ++ space :: word).
Proof.
  intros (cur & Hseg & Hdone & Hlen). unfold Renderer.lines_step.
  assert (Hseg' : segment st ++ word ++ [space] = (done ++ space :: word) ++ [space]).
  { rewrite Hseg, <- !app_assoc. reflexivity. }
  destruct (gt_int _ _).
  - assert (Hcut : substring (segment st ++ word ++ [space]) (segmentLen st)
                     (len (segment st ++ word ++ [space]) - 1 - len word - 1) = cur).
    { rewrite Hlen.
      replace (len (segment st ++ word ++ [space]) - 1 - len word - 1)
        with (len (closed (segments st)) + len cur).
      - rewrite Hseg, Hdone, <- !app_assoc. apply substring_middle.
      - rewrite Hseg, Hdone, !len_app. unfold len. simpl length. lia. }
    exists word. simpl. rewrite Hcut, closed_snoc. split; [exact Hseg' |]. split.
    + rewrite Hdone, <- !app_assoc. reflexivity.
    + rewrite Hlen, !len_app. unfold len. simpl length. lia.
  - exists (cur ++ space :: word). simpl. split; [exact Hseg' |]. split.
    + rewrite Hdone, <- app_assoc. reflexivity.
    + exact Hlen.
Qed.

Lemma cut_invariant_loop (lineHeight : Z) (ws : list str) (st : lines_state) (done : str) :
  cut_invariant st done ->
  cut_invariant (fold_left (lines_step lineHeight) ws st) (done ++ spaced ws).
Proof.
  revert st done. induction ws as [| w ws IH]; intros st done Hinv; simpl.
  - unfold spaced. simpl. rewrite app_nil_r. exact Hinv.
  - apply (cut_invariant_step lineHeight _ _ w), IH in Hinv.
    unfold spaced in *. simpl. rewrite <- app_assoc in Hinv. exact Hinv.
Qed.

(** The first word, when it does not already overflow the first line. *)
Lemma cut_invariant_first (lineHeight : Z) (word : str) :
  gt_int (div_int (offsetHeight (word ++ [space])) lineHeight) 1 = false ->
  cut_invariant (lines_step lineHeight lines_init word) word.
Proof.
  intros Hfit. unfold Renderer.lines_step. simpl. rewrite Hfit.
  exists word. simpl. repeat split.
Qed.

(** C3, as amended: when the first word alone does not overflow the first
    line, joining the lines with single spaces gives back the text exactly;
    the space at each line boundary is the only character left out of the
    lines. *)
Theorem lines_rejoin (originalText : str) (lineHeight : Z) :
  gt_int (div_int (offsetHeight (hd [] (split originalText) ++ [space])) lineHeight) 1
  = false ->
  join (getLines originalText lineHeight) = originalText.
Proof.
  intros Hfit. unfold Renderer.getLines.
  pose proof (split_nonempty originalText) as Hne.
  pose proof (join_split originalText) as Hjoin.
  destruct (split originalText) as [| w ws]; [congruence |].
  simpl hd in Hfit. simpl fold_left.
  pose proof (cut_invariant_loop lineHeight ws _ _ (cut_invariant_first lineHeight w Hfit))
    as (cur & Hseg & Hdone & Hlen).
  rewrite join_snoc, Hlen, Hseg.
  set (pre := closed (segments _)) in *.
  rewrite Hdone.
  replace (len ((pre ++ cur) ++ [space]) - 1) with (len pre + len cur)
    by (rewrite !len_app; unfold len; simpl length; lia).
  rewrite <- app_assoc, substring_middle.
  rewrite <- Hdone, <- join_spaced. exact Hjoin.
Qed.

(** *** The page *)

Abbreviation updateTranscription :=
  (updateTranscription offsetHeight lineHeightStyle innerHTML).
Abbreviation on_request := (on_request offsetHeight lineHeightStyle innerHTML).
Abbreviation on_requests := (on_requests offsetHeight lineHeightStyle innerHTML).
Abbreviation lineHeight := (lineHeight lineHeightStyle).

Lemma on_requests_snoc (pg : page) (rs : list request) (r : request) :
  on_requests pg (rs ++ [r]) = on_request (on_requests pg rs) r.
Proof. unfold Renderer.on_requests. apply fold_left_app. Qed.

(** The lines of an update are cut from the text as the measuring element
    reads it back, whatever the page held. *)
Lemma textSegments_update (pg : page) (text : str) :
  textSegments (updateTranscription pg text)
  = getLines (innerHTML (replace_breaks text)) lineHeight.
Proof. reflexivity. Qed.

Lemma length_show_segments (toShow els : list str) (index : nat) :
  length (show_segments index toShow els) = length els.
Proof.
  revert index els. induction toShow as [| s toShow IH]; intros index els; simpl;
    [reflexivity |].
  rewrite IH. apply length_insert.
Qed.

Lemma three_elements_request (pg : page) (r : request) :
  three_elements pg -> three_elements (on_request pg r).
Proof.
  unfold three_elements. intros Hpg.
  destruct r as [| data | [| message]]; simpl; try exact Hpg; [exact I |].
  destruct (data_segments message); [| exact Hpg].
  destruct (has_content _); [| exact Hpg].
  simpl. rewrite length_show_segments, length_map.
  destruct (transcriptionContainer pg); [exact Hpg | reflexivity].
Qed.

Lemma three_elements_requests (rs : list request) (pg : page) :
  three_elements pg -> three_elements (on_requests pg rs).
Proof.
  revert pg. unfold Renderer.on_requests.
  induction rs as [| r rs IH]; intros pg Hpg; simpl; [exact Hpg |].
  apply IH, three_elements_request, Hpg.
Qed.

Lemma length_segmentsToShow (lines : list str) :
  length (segmentsToShow lines) = Nat.min 3 (length lines).
Proof.
  unfold segmentsToShow. rewrite length_drop. lia.
Qed.

Lemma show_three (toShow : list str) (els : list str) :
  (length toShow <= 3)%nat -> length els = 3%nat ->
  show_segments 0 toShow (map (fun _ => []) els)
  = toShow ++ replicate (3 - length toShow) [].
Proof.
  intros Hshow Hels.
  destruct els as [| e0 [| e1 [| e2 [| e3 els]]]]; try discriminate.
  destruct toShow as [| s0 [| s1 [| s2 [| s3 toShow]]]]; try reflexivity.
  simpl in Hshow. lia.
Qed.

Lemma container_update (pg : page) (text : str) :
  three_elements pg ->
  transcriptionContainer (updateTranscription pg text)
  = Some (segmentsToShow (textSegments (updateTranscription pg text))
          ++ replicate (3 - length (segmentsToShow
                                      (textSegments (updateTranscription pg text)))) []).
Proof.
  unfold three_elements. intros Hthree.
  unfold Renderer.updateTranscription. cbn [transcriptionContainer textSegments].
  f_equal. destruct (transcriptionContainer pg) as [els |].
  - apply show_three; [rewrite length_segmentsToShow; lia | exact Hthree].
  - apply (show_three _ initTranscriptionElement);
      [rewrite length_segmentsToShow; lia | reflexivity].
Qed.

Lemma on_request_transcript (pg : page) (message : server_message)
    (segs : list Wire.segment) :
  data_segments message = Some segs ->
  on_request pg (transcript (Parsed message))
  = if has_content (batch_text segs) then updateTranscription pg (batch_text segs)
    else pg.
Proof. intros Hsegs. simpl. rewrite Hsegs. reflexivity. Qed.

(** C4, as amended: a batch is turned into one text, every non-empty segment
    text followed by a single space.  A batch whose text is blank leaves the
    page as it was.  Otherwise the display lines are cut from that text
    alone, line breaks replaced by spaces and read back from the measuring
    element, whatever was received before; and the visible elements show the
    last three of these lines. *)
Theorem display_lines_from_batch
    (pg : page) (rs : list request) (message : server_message) (segs : list Wire.segment) :
  data_segments message = Some segs ->
  (has_content (batch_text segs) = false ->
   on_requests pg (rs ++ [transcript (Parsed message)]) = on_requests pg rs)
  /\ (has_content (batch_text segs) = true ->
      let lines := getLines (innerHTML (replace_breaks (batch_text segs))) lineHeight in
      textSegments (on_requests pg (rs ++ [transcript (Parsed message)])) = lines
      /\ (three_elements pg ->
          transcriptionContainer (on_requests pg (rs ++ [transcript (Parsed message)]))
          = Some (segmentsToShow lines
                  ++ replicate (3 - length (segmentsToShow lines)) []))).
Proof.
  intros Hsegs. rewrite on_requests_snoc, (on_request_transcript _ _ _ Hsegs). split.
  - intros Hblank. rewrite Hblank. reflexivity.
  - intros Hcontent lines. rewrite Hcontent. split; [apply textSegments_update |].
    intros Hthree. rewrite container_update by (apply three_elements_requests, Hthree).
    rewrite textSegments_update. reflexivity.
Qed.

(** C7, as amended: after any history of requests, an update leaves at most
    three lines on display, the last three of the lines it has just cut, in
    order, the unused elements being empty; the earlier lines of this update
    stay in [textSegments], which holds the lines of this update and of no
    other. *)
Theorem display_window_bounded (rs : list request) (text : str) :
  let pg := updateTranscription (on_requests page_init rs) text in
  let shown := segmentsToShow (textSegments pg) in
  (length shown <= 3)%nat
  /\ length shown = Nat.min 3 (length (textSegments pg))
  /\ (exists earlier, textSegments pg = earlier ++ shown)
  /\ textSegments pg = getLines (innerHTML (replace_breaks text)) lineHeight
  /\ transcriptionContainer pg = Some (shown ++ replicate (3 - length shown) []).
Proof.
  intros pg shown.
  assert (Hlen : length shown = Nat.min 3 (length (textSegments pg)))
    by apply length_segmentsToShow.
  split; [lia |]. split; [exact Hlen |]. split; [| split; [reflexivity |]].
  - exists (take (Z.to_nat (Z.max 0 (Z.of_nat (length (textSegments pg)) - 3)))
                 (textSegments pg)).
    symmetry. apply take_drop.
  - apply container_update, three_elements_requests. exact I.
Qed.

End Layout.

Import Examples.

Lemma display_lines_from_batch_witness :
  data_segments (segments_message uid (batch "b")) = Some (batch "b")
  /\ has_content (batch_text (batch "b")) = true
  /\ three_elements page_init
  /\ textSegments (Renderer.on_requests wide_box None read_back page_init
                     ([transcript_of (batch "a")] ++ [transcript_of (batch "b")]))
     = [list_ascii_of_string "b "]
  /\ transcriptionContainer
       (Renderer.on_requests wide_box None read_back page_init
          ([transcript_of (batch "a")] ++ [transcript_of (batch "b")]))
     = Some [list_ascii_of_string "b "; []; []].
Proof.
  split; [reflexivity |]. split; [reflexivity |]. split; [exact I |].
  destruct (proj2 (display_lines_from_batch wide_box None read_back page_init
                     [transcript_of (batch "a")]
                     (segments_message uid (batch "b")) (batch "b") eq_refl)
                  eq_refl) as [Hlines Hshown].
  split; [exact Hlines | exact (Hshown I)].
Defined.

(** C4 as stated fails: after the batches "a" and "b" the lines hold the text
    of the second batch only, not the text accumulated over both. *)
Lemma second_batch_replaces_first :
  let pg := Renderer.on_requests wide_box None read_back page_init
              [transcript_of (batch "a"); transcript_of (batch "b")] in
  textSegments pg = [list_ascii_of_string "b "]
  /\ Renderer.getLines wide_box (read_back (spec_accumulated [batch "a"; batch "b"]))
                       (Renderer.lineHeight None)
     = [list_ascii_of_string "a b "]
  /\ textSegments pg
     <> Renderer.getLines wide_box (read_back (spec_accumulated [batch "a"; batch "b"]))
                         (Renderer.lineHeight None).
Proof.
  split; [reflexivity |]. split; [reflexivity |]. vm_compute. discriminate.
Qed.

(** C7 as stated fails: the line "one" leaves the display at the first
    update and is still in [textSegments] then; after the next update it is
    neither there nor on display, and the page holds no transcript text
    besides. *)
Lemma earlier_lines_not_retained :
  let one := list_ascii_of_string "one" in
  let first := Renderer.on_requests narrow_box None read_back page_init
                 [transcript_of (batch "one two three four five")] in
  let second := Renderer.on_request narrow_box None read_back first
                  (transcript_of (batch "b")) in
  In one (textSegments first)
  /\ ~ In one (segmentsToShow (textSegments first))
  /\ second = {| transcriptionContainer := Some [list_ascii_of_string "b "; []; []];
                 textSegments := [list_ascii_of_string "b "];
                 popup := None |}
  /\ ~ In one (textSegments second).
Proof.
  split; [vm_compute; tauto |]. split; [| split; [reflexivity |]].
  - vm_compute. intros [H | [H | [H | []]]]; discriminate.
  - vm_compute. intros [H | []]. discriminate.
Qed.

(** What is cut is the text as read back, not as received: the lines of
    "R&D a < b" hold character references. *)
Example lines_of_read_back :
  textSegments (Renderer.on_requests wide_box None read_back page_init
                  [transcript_of (batch "R&D a < b")])
  = [list_ascii_of_string "R&amp;D a &lt; b "].
Proof. reflexivity. Qed.

Lemma lines_rejoin_witness :
  let originalText := list_ascii_of_string "aa bb cc" in
  gt_int (div_int (narrow_box (hd [] (split originalText) ++ [space])) 24) 1 = false
  /\ length (Renderer.getLines narrow_box originalText 24) = 3%nat
  /\ join (Renderer.getLines narrow_box originalText 24) = originalText.
Proof.
  intros originalText. split; [reflexivity |]. split; [reflexivity |].
  apply (lines_rejoin narrow_box originalText 24). reflexivity.
Defined.

(** When the first word alone overflows the first line, the first cut is
    empty and the next line starts one character late. *)
Example first_word_overflow :
  Renderer.getLines (fun _ => 48) (list_ascii_of_string "abc") 24
  = [[]; list_ascii_of_string "bc"].
Proof. reflexivity. Qed.

(** C3 as stated fails: in a box one word wide the text is cut into its
    words, and their concatenation has lost both spaces. *)
Lemma lines_concat_loses_spaces :
  let originalText := list_ascii_of_string "aa bb cc" in
  concat (Renderer.getLines narrow_box originalText 24) = list_ascii_of_string "aabbcc"
  /\ concat (Renderer.getLines narrow_box originalText 24) <> originalText.
Proof.
  split; [reflexivity |]. vm_compute. discriminate.
Qed.

End RendererFacts.

(** ** Resampler: length, range and the identity at 16 kHz *)

Module ResamplerMore.
Import JsNum Resampler ResamplerFacts ResamplerWords.

Lemma round_half (n : Z) (q : Q) :
  (inject_Z n <= q + (1 # 2))%Q -> (q + (1 # 2) < inject_Z n + 1)%Q -> round q = n.
Proof.
  intros H1 H2. unfold round.
  pose proof (Qfloor_le (q + (1 # 2))) as Hf1.
  pose proof (Qlt_floor (q + (1 # 2))) as Hf2.
  rewrite inject_Z_plus in Hf2. change (inject_Z 1) with 1%Q in Hf2.
  assert (Ha : (inject_Z (Qfloor (q + (1 # 2))) < inject_Z (n + 1))%Q)
    by (rewrite inject_Z_plus; change (inject_Z 1) with 1%Q; lra).
  assert (Hb : (inject_Z n < inject_Z (Qfloor (q + (1 # 2)) + 1))%Q)
    by (rewrite inject_Z_plus; change (inject_Z 1) with 1%Q; lra).
  rewrite <- Zlt_Qlt in Ha, Hb. lia.
Qed.

Lemma targetLength_16k (n : nat) : targetLength n 16000 = Z.of_nat n.
Proof.
  unfold targetLength.
  assert (H : Qeq (inject_Z targetSampleRate / inject_Z 16000) 1%Q) by reflexivity.
  apply round_half; rewrite H; clear H; lra.
Qed.

Lemma targetLength_nonneg (n : nat) (rate : positive) : 0 <= targetLength n rate.
Proof.
  unfold targetLength, round.
  change 0 with (Qfloor 0). apply Qfloor_resp_le.
  assert (H : (0 <= inject_Z targetSampleRate / inject_Z (Z.pos rate))%Q).
  { apply Qle_shift_div_l; [reflexivity | ]. rewrite Qmult_0_l. discriminate. }
  assert (Hn : (0 <= inject_Z (Z.of_nat n))%Q) by (rewrite <- (Zle_Qle 0); lia).
  nra.
Qed.

Lemma targetLength_le (n : nat) (rate : positive) :
  16000 <= Z.pos rate -> targetLength n rate <= Z.of_nat n.
Proof.
  intros Hrate. unfold targetLength, round.
  rewrite <- (Qfloor_Z (Z.of_nat n)).
  transitivity (Qfloor (inject_Z (Z.of_nat n) + (1 # 2))).
  - apply Qfloor_resp_le.
    assert (H : (inject_Z targetSampleRate / inject_Z (Z.pos rate) <= 1)%Q).
    { apply Qle_shift_div_r; [reflexivity |]. rewrite Qmult_1_l.
      rewrite <- Zle_Qle. exact Hrate. }
    assert (H0 : (0 <= inject_Z targetSampleRate / inject_Z (Z.pos rate))%Q).
    { apply Qle_shift_div_l; [reflexivity | ]. rewrite Qmult_0_l. discriminate. }
    assert (Hn : (0 <= inject_Z (Z.of_nat n))%Q) by (rewrite <- (Zle_Qle 0); lia).
    rewrite Qfloor_Z. nra.
  - rewrite Qfloor_Z.
    pose proof (Qfloor_le (inject_Z (Z.of_nat n) + (1 # 2))) as Hf.
    assert (Ha : (inject_Z (Qfloor (inject_Z (Z.of_nat n) + (1 # 2))) < inject_Z (Z.of_nat n + 1))%Q)
      by (rewrite inject_Z_plus; change (inject_Z 1) with 1%Q; lra).
    rewrite <- Zlt_Qlt in Ha. lia.
Qed.

Section Loop.
Variable f : Z -> number.

Lemma lookup_loop_written (idxs : list Z) (out : f32array) (k : nat) :
  In (Z.of_nat k) idxs -> (k < length out)%nat ->
  fold_left (fun out i => set out i (f i)) idxs out !! k = Some (f (Z.of_nat k)).
Proof.
  revert out. induction idxs as [| i idxs IH]; intros out Hin Hk; [destruct Hin |].
  simpl. destruct (in_dec Z.eq_dec (Z.of_nat k) idxs) as [Hlater | Hlast].
  - apply IH; [exact Hlater |]. rewrite length_set. exact Hk.
  - destruct Hin as [-> | Hin]; [| contradiction].
    rewrite lookup_loop_untouched.
    + apply lookup_set_eq, Hk.
    + apply Forall_forall. intros j Hj ->. apply Hlast.
      apply list_elem_of_In. exact Hj.
Qed.
End Loop.

(** Every cell of the output, by position. *)
Lemma resample_at_lookup (data : f32array) (tl : Z) (k : nat) :
  Z.of_nat k < tl ->
  resample_at data tl !! k
  = Some (if Z.of_nat k =? tl - 1 then to_number (last data)
          else if Z.of_nat k =? 0 then to_number (data !! 0%nat)
          else interpolate data (springFactor (length data) tl) (Z.of_nat k)).
Proof.
  intros Hk. destruct (Z.eqb_spec (Z.of_nat k) (tl - 1)) as [Hlast | Hlast].
  - pose proof (resample_at_last data tl ltac:(lia)) as H.
    rewrite last_lookup, length_resample_at, get_last in H.
    replace k with (Nat.pred (Z.to_nat tl)) by lia. exact H.
  - destruct (Z.eqb_spec (Z.of_nat k) 0) as [Hfirst | Hfirst].
    + replace k with 0%nat by lia. apply resample_at_first. lia.
    + unfold resample_at.
      rewrite (lookup_loop_written (interpolate data (springFactor (length data) tl))).
      * reflexivity.
      * apply list_elem_of_In, elem_of_seqZ. lia.
      * rewrite !length_set, length_replicate. lia.
Qed.

Lemma get_num_int (data : f32array) (z : Z) :
  get_num data (Finite (inject_Z z)) = get data z.
Proof.
  unfold get_num. rewrite Qfloor_Z.
  destruct (Qeq_bool (inject_Z z) (inject_Z z)) eqn:E; [reflexivity |].
  apply Qeq_bool_neq in E. exfalso. apply E. reflexivity.
Qed.

(** The fractional source index of an interior output position lies within
    the input. *)
Lemma interior_index_bounds (n tl i : Z) :
  1 <= n -> 3 <= tl -> 1 <= i <= tl - 2 ->
  (0 <= inject_Z i * (inject_Z (n - 1) / inject_Z (tl - 1))
   /\ inject_Z i * (inject_Z (n - 1) / inject_Z (tl - 1)) <= inject_Z (n - 1))%Q.
Proof.
  intros Hn Htl Hi.
  assert (Hd : (0 < inject_Z (tl - 1))%Q) by (rewrite <- (Zlt_Qlt 0); lia).
  assert (Hm : (0 <= inject_Z (n - 1))%Q) by (rewrite <- (Zle_Qle 0); lia).
  assert (Hi0 : (0 <= inject_Z i)%Q) by (rewrite <- (Zle_Qle 0); lia).
  assert (Hid : (inject_Z i <= inject_Z (tl - 1))%Q) by (rewrite <- Zle_Qle; lia).
  assert (Hq0 : (0 <= inject_Z (n - 1) / inject_Z (tl - 1))%Q).
  { apply Qle_shift_div_l; [exact Hd |]. rewrite Qmult_0_l. exact Hm. }
  split; [nra |].
  assert (E : (inject_Z i * (inject_Z (n - 1) / inject_Z (tl - 1))
               == (inject_Z i * inject_Z (n - 1)) / inject_Z (tl - 1))%Q).
  { unfold Qdiv. ring. }
  rewrite E. apply Qle_shift_div_r; [exact Hd |]. nra.
Qed.

Lemma get_in_range (lo hi : Q) (data : f32array) (z : Z) :
  Forall (within lo hi) data -> 0 <= z < Z.of_nat (length data) ->
  exists q, get data z = Some (Finite q) /\ (lo <= q /\ q <= hi)%Q.
Proof.
  intros Hall Hz. unfold get. destruct (Z.ltb_spec z 0); [lia |].
  destruct (lookup_lt_is_Some_2 data (Z.to_nat z) ltac:(lia)) as [x Hx].
  pose proof (Forall_lookup_1 _ _ _ _ Hall Hx) as Hw.
  destruct x as [q | | |]; try contradiction.
  exists q. split; [exact Hx | exact Hw].
Qed.

Lemma interpolate_within (lo hi : Q) (data : f32array) (tl i : Z) :
  Forall (within lo hi) data -> data <> [] -> 3 <= tl -> 1 <= i <= tl - 2 ->
  within lo hi (interpolate data (springFactor (length data) tl) i).
Proof.
  intros Hall Hne Htl Hi.
  assert (Hn : 1 <= Z.of_nat (length data)) by (destruct data; [congruence | simpl length; lia]).
  unfold springFactor, div_int. destruct (Z.eqb_spec (tl - 1) 0) as [| _]; [lia |].
  destruct (interior_index_bounds _ _ _ Hn Htl Hi) as [H0 Hmax].
  unfold interpolate. cbn [mul floor ceil sub add neg].
  set (q0 := (inject_Z i * (inject_Z (Z.of_nat (length data) - 1) / inject_Z (tl - 1)))%Q) in *.
  rewrite !get_num_int.
  assert (Hfl : 0 <= Qfloor q0 < Z.of_nat (length data)).
  { split.
    - change 0 with (Qfloor 0). apply Qfloor_resp_le, H0.
    - apply Qfloor_resp_le in Hmax. rewrite Qfloor_Z in Hmax. lia. }
  assert (Hce : 0 <= Qceiling q0 < Z.of_nat (length data)).
  { split.
    - change 0 with (Qceiling 0). apply Qceiling_resp_le, H0.
    - apply Qceiling_resp_le in Hmax. rewrite Qceiling_Z in Hmax. lia. }
  destruct (get_in_range lo hi data _ Hall Hfl) as (l & -> & Hl).
  destruct (get_in_range lo hi data _ Hall Hce) as (r & -> & Hr).
  cbn [to_number mul add neg within].
  pose proof (Qfloor_le q0) as Hf1. pose proof (Qlt_floor q0) as Hf2.
  rewrite inject_Z_plus in Hf2. change (inject_Z 1) with 1%Q in Hf2.
  set (fl := inject_Z (Qfloor q0)) in *.
  assert (Hfrac0 : (0 <= q0 + - fl)%Q) by lra.
  assert (Hfrac1 : (q0 + - fl <= 1)%Q) by lra.
  set (t := (q0 + - fl)%Q) in *. clearbody t. clear - Hl Hr Hfrac0 Hfrac1.
  split; nra.
Qed.


(** Interpolation never leaves the range of the input: when every input
    sample is a finite number between [lo] and [hi], so is every output
    sample.  In particular no output cell keeps its initial zero by
    accident of the range, and none is [NaN]. *)
Theorem resample_within (lo hi : Q) (data : f32array) (origSampleRate : positive) :
  Forall (within lo hi) data ->
  Forall (within lo hi) (resampleTo16kHZ data origSampleRate).
Proof.
  intros Hall. apply Forall_lookup_2. intros k x Hx.
  pose proof (lookup_lt_Some _ _ _ Hx) as Hk.
  unfold resampleTo16kHZ in *. rewrite length_resample_at in Hk.
  set (tl := targetLength (length data) origSampleRate) in *.
  assert (Hne : data <> [])
    by (apply (nonempty_output_nonempty_input _ origSampleRate); fold tl; lia).
  rewrite resample_at_lookup in Hx by lia. injection Hx as <-.
  destruct (Z.eqb_spec (Z.of_nat k) (tl - 1)) as [Hlast | Hlast].
  - destruct (last data) as [y |] eqn:Ey; [| apply last_None in Ey; congruence].
    rewrite last_lookup in Ey. exact (Forall_lookup_1 _ _ _ _ Hall Ey).
  - destruct (Z.eqb_spec (Z.of_nat k) 0) as [Hfirst | Hfirst].
    + destruct data as [| y data]; [congruence |]. simpl.
      exact (Forall_lookup_1 _ _ 0%nat _ Hall eq_refl).
    + apply interpolate_within; [exact Hall | exact Hne | lia | lia].
Qed.

(** From a source rate of 16 kHz or more the output is never longer than
    the input. *)
Theorem downsampling_never_lengthens (data : f32array) (origSampleRate : positive) :
  16000 <= Z.pos origSampleRate ->
  (length (resampleTo16kHZ data origSampleRate) <= length data)%nat.
Proof.
  intros Hrate. unfold resampleTo16kHZ. rewrite length_resample_at.
  pose proof (targetLength_le (length data) origSampleRate Hrate). lia.
Qed.

Lemma interpolate_same_rate (data : f32array) (i : Z) (q : Q) :
  3 <= Z.of_nat (length data) -> 1 <= i ->
  get data i = Some (Finite q) ->
  same_sample
    (interpolate data (springFactor (length data) (Z.of_nat (length data))) i)
    (Finite q).
Proof.
  intros Hn Hi Hget.
  unfold springFactor, div_int.
  destruct (Z.eqb_spec (Z.of_nat (length data) - 1) 0) as [| _]; [lia |].
  unfold interpolate. cbn [mul floor ceil sub add neg].
  set (m := Z.of_nat (length data) - 1) in *.
  assert (E : (inject_Z i * (inject_Z m / inject_Z m) == inject_Z i)%Q).
  { field. intros H. apply (Qeq_bool_neq (inject_Z m) 0); [| exact H].
    unfold inject_Z, Qeq_bool. simpl. apply Z.eqb_neq. lia. }
  rewrite (Qfloor_comp _ _ E), (Qceiling_comp _ _ E), Qfloor_Z, Qceiling_Z.
  rewrite !get_num_int, Hget. cbn [to_number mul add sub neg same_sample].
  rewrite E. ring.
Qed.

(** At a source rate of 16 kHz the output has the length of the input and,
    for finite samples, the same value at every position. *)
Theorem resample_same_rate (data : f32array) :
  Forall is_finite data ->
  Forall2 same_sample (resampleTo16kHZ data 16000) data.
Proof.
  intros Hfin. unfold resampleTo16kHZ. rewrite targetLength_16k.
  apply Forall2_same_length_lookup_2.
  - rewrite length_resample_at. lia.
  - intros k x y Hx Hy.
    pose proof (lookup_lt_Some _ _ _ Hy) as Hk.
    pose proof (Forall_lookup_1 _ _ _ _ Hfin Hy) as Hq.
    destruct y as [q | | |]; try contradiction.
    rewrite resample_at_lookup in Hx by lia. injection Hx as <-.
    destruct (Z.eqb_spec (Z.of_nat k) (Z.of_nat (length data) - 1)) as [Hlast | Hlast].
    + rewrite last_lookup. replace (Nat.pred (length data)) with k by lia.
      rewrite Hy. simpl. reflexivity.
    + destruct (Z.eqb_spec (Z.of_nat k) 0) as [Hfirst | Hfirst].
      * assert (k = 0%nat) as -> by lia.
        destruct data as [| y data]; [discriminate |].
        injection Hy as ->. simpl. reflexivity.
      * apply interpolate_same_rate; [lia | lia |].
        unfold get. destruct (Z.ltb_spec (Z.of_nat k) 0); [lia |].
        rewrite Nat2Z.id. exact Hy.
Qed.

Lemma resample_within_witness :
  let data := map (fun z => Finite (z # 4)) [-4; 3; 0; 4; -1; 2; 1; -3; 4] in
  Forall (within (-1) 1) data
  /\ Forall (within (-1) 1) (resampleTo16kHZ data 44100).
Proof.
  intros data.
  assert (H : Forall (within (-1) 1) data)
    by (repeat constructor; unfold Qle; simpl; lia).
  split; [exact H | exact (resample_within (-1) 1 data 44100 H)].
Defined.

Lemma downsampling_never_lengthens_witness :
  16000 <= Z.pos 44100
  /\ (length (resampleTo16kHZ (replicate 9 (Finite 0)) 44100) <= 9)%nat.
Proof.
  assert (H : 16000 <= Z.pos 44100) by lia.
  split; [exact H |].
  exact (downsampling_never_lengthens (replicate 9 (Finite 0)) 44100 H).
Defined.

Lemma resample_same_rate_witness :
  let data := [Finite 1; Finite (1 # 2); Finite 0; Finite (-1)] in
  Forall is_finite data /\ Forall2 same_sample (resampleTo16kHZ data 16000) data.
Proof.
  intros data.
  assert (H : Forall is_finite data) by (repeat constructor).
  split; [exact H | exact (resample_same_rate data H)].
Defined.

End ResamplerMore.

(** ** Streaming session: traces *)

Module SessionMore.
Import JsNum Wire Session SessionFacts SessionWords.

Section Handlers.
Variable uuid : string.
Variable opts : options.
Variable sampleRate : positive.

Abbreviation step := (step uuid opts sampleRate).
Abbreviation run := (run uuid opts sampleRate).
Abbreviation handle_message := (handle_message uuid opts).
Abbreviation handle_audio := (handle_audio sampleRate).

Ltac message_cases :=
  unfold Session.handle_message;
  repeat match goal with
         | |- context [match ?d with Malformed => _ | Parsed _ => _ end] => destruct d
         | |- context [if ?b then _ else _] => destruct b eqn:?
         | |- context [match data_segments ?m with Some _ => _ | None => _ end] =>
             destruct (data_segments m) eqn:?
         | |- context [match last ?l with Some _ => _ | None => _ end] =>
             destruct (last l) eqn:?
         end.

Ltac audio_cases :=
  unfold Session.handle_audio;
  repeat match goal with
         | |- context [if ?b then _ else _] => destruct b eqn:?
         | |- context [match readyState ?st with _ => _ end] => destruct (readyState st) eqn:?
         end.

(** Readiness after a callback, from the callback alone. *)
Lemma step_ready (st : state) (e : event) :
  isServerReady (fst (step st e)) = isServerReady st || announces_ready uuid e.
Proof.
  destruct e as [| code reason | | d | inputData]; simpl;
    try (rewrite orb_false_r; reflexivity).
  - destruct d as [| data]; [simpl; rewrite orb_false_r; reflexivity |].
    unfold Session.handle_message. simpl.
    destruct (is_string (data_uid data) uuid); simpl;
      [| rewrite orb_false_r; reflexivity].
    destruct (is_string (data_status data) "WAIT"); simpl;
      [rewrite orb_false_r; reflexivity |].
    destruct (isServerReady st) eqn:Hr; simpl.
    + repeat match goal with
             | |- context [if ?b then _ else _] => destruct b
             | |- context [match ?o with Some _ => _ | None => _ end] => destruct o
             end; simpl; first [reflexivity | exact Hr].
    + destruct (is_string (data_message data) "SERVER_READY"); [reflexivity |].
      repeat match goal with
             | |- context [if ?b then _ else _] => destruct b
             | |- context [match ?o with Some _ => _ | None => _ end] => destruct o
             end; simpl; first [reflexivity | exact Hr].
  - audio_cases; simpl; rewrite orb_false_r; reflexivity.
Qed.

(** The session is ready exactly when it was ready at the start or some
    message since then carried its uid, was not a [WAIT] status and read
    [SERVER_READY]; nothing else sets the flag and nothing clears it. *)
Theorem ready_iff_announced (st : state) (es : list event) :
  isServerReady (fst (run st es))
  = isServerReady st || existsb (announces_ready uuid) es.
Proof.
  revert st. induction es as [| e es IH]; intros st.
  - simpl. rewrite orb_false_r. reflexivity.
  - rewrite run_cons. simpl fst. rewrite IH, step_ready. simpl existsb.
    rewrite orb_assoc. reflexivity.
Qed.


(** *** Messages for another client *)

Lemma step_foreign (st : state) (e : event) :
  is_foreign uuid e = true ->
  step st e = (st, [UpdateStatus server DifferentClient true]).
Proof.
  destruct e as [| code reason | | [| data] | inputData]; simpl; try discriminate.
  intros H. unfold Session.handle_message. rewrite H. reflexivity.
Qed.

Lemma step_own_no_foreign_notice (st : state) (e : event) :
  is_foreign uuid e = false ->
  List.filter (fun x => negb (is_foreign_notice x)) (snd (step st e)) = snd (step st e).
Proof.
  destruct e as [| code reason | | d | inputData]; simpl; try reflexivity.
  - intros H. destruct d as [| data]; [reflexivity |]. simpl in H.
    unfold Session.handle_message. rewrite H.
    repeat match goal with
           | |- context [if ?b then _ else _] => destruct b
           | |- context [match ?o with Some _ => _ | None => _ end] => destruct o
           end; reflexivity.
  - intros _. audio_cases; reflexivity.
Qed.

(** Messages for another client change nothing: the state after a run is
    the state of the run without them, and apart from the one notice each
    of them causes, the effects are the same too. *)
Theorem foreign_messages_inert (st : state) (es : list event) :
  fst (run st es)
  = fst (run st (List.filter (fun e => negb (is_foreign uuid e)) es))
  /\ List.filter (fun x => negb (is_foreign_notice x)) (snd (run st es))
     = snd (run st (List.filter (fun e => negb (is_foreign uuid e)) es)).
Proof.
  revert st. induction es as [| e es IH]; intros st; [split; reflexivity |].
  rewrite run_cons. cbn [fst snd]. rewrite List.filter_app.
  assert (Hf : List.filter (fun e => negb (is_foreign uuid e)) (e :: es)
               = if negb (is_foreign uuid e)
                 then e :: List.filter (fun e => negb (is_foreign uuid e)) es
                 else List.filter (fun e => negb (is_foreign uuid e)) es)
    by reflexivity.
  rewrite Hf. clear Hf. destruct (is_foreign uuid e) eqn:He; simpl negb; cbv iota.
  - rewrite (step_foreign _ _ He). simpl. apply IH.
  - rewrite run_cons. cbn [fst snd].
    rewrite (step_own_no_foreign_notice _ _ He).
    destruct (IH (fst (step st e))) as [IHst IHout].
    rewrite IHout. split; [exact IHst | reflexivity].
Qed.

(** *** Notices sent once *)

Lemma step_ready_notice (st : state) (e : event) :
  List.filter is_ready_notice (snd (step st e)) = []
  \/ (isServerReady st = false
      /\ isServerReady (fst (step st e)) = true
      /\ length (List.filter is_ready_notice (snd (step st e))) = 1%nat).
Proof.
  destruct e as [| code reason | | d | inputData]; simpl; try (left; reflexivity).
  - destruct d as [| data]; [left; reflexivity |].
    unfold Session.handle_message.
    destruct (negb (is_string (data_uid data) uuid)); [left; reflexivity |].
    destruct (is_string (data_status data) "WAIT"); [left; reflexivity |].
    destruct (isServerReady st) eqn:Hr; simpl.
    + left.
      repeat match goal with
             | |- context [if ?b then _ else _] => destruct b
             | |- context [match ?o with Some _ => _ | None => _ end] => destruct o
             end; reflexivity.
    + destruct (is_string (data_message data) "SERVER_READY");
        [right; repeat split; reflexivity |].
      left.
      repeat match goal with
             | |- context [if ?b then _ else _] => destruct b
             | |- context [match ?o with Some _ => _ | None => _ end] => destruct o
             end; reflexivity.
  - left. audio_cases; reflexivity.
Qed.

Lemma run_ready_no_notice (st : state) (es : list event) :
  isServerReady st = true ->
  List.filter is_ready_notice (snd (run st es)) = [].
Proof.
  revert st. induction es as [| e es IH]; intros st Hr; [reflexivity |].
  rewrite run_cons. cbn [snd]. rewrite List.filter_app.
  rewrite IH by (apply step_ready_stays, Hr). rewrite app_nil_r.
  destruct (step_ready_notice st e) as [H | (H & _)]; [exact H | congruence].
Qed.

(** "Server ready" is announced at most once in any run, and never by a
    session that is already ready. *)
Theorem ready_notice_once (st : state) (es : list event) :
  (length (List.filter is_ready_notice (snd (run st es))) <= 1)%nat
  /\ (isServerReady st = true ->
      List.filter is_ready_notice (snd (run st es)) = []).
Proof.
  split; [| apply run_ready_no_notice].
  revert st. induction es as [| e es IH]; intros st; [simpl; lia |].
  rewrite run_cons. cbn [snd]. rewrite List.filter_app, length_app.
  destruct (step_ready_notice st e) as [H | (_ & Hr & H)].
  - rewrite H. simpl. apply IH.
  - rewrite H, (run_ready_no_notice _ _ Hr). simpl. lia.
Qed.

Lemma step_language_notice (st : state) (e : event) :
  List.filter is_language_notice (snd (step st e)) = []
  \/ (is_null (language st) = true
      /\ is_null (language (fst (step st e))) = false
      /\ length (List.filter is_language_notice (snd (step st e))) = 1%nat).
Proof.
  destruct e as [| code reason | | d | inputData]; simpl; try (left; reflexivity).
  - destruct d as [| data]; [left; reflexivity |].
    unfold Session.handle_message.
    destruct (negb (is_string (data_uid data) uuid)); [left; reflexivity |].
    destruct (is_string (data_status data) "WAIT"); [left; reflexivity |].
    destruct (negb (isServerReady st) && is_string (data_message data) "SERVER_READY");
      [left; reflexivity |].
    destruct (is_null (language st)) eqn:Hn; simpl.
    + destruct (truthy (data_language data)) eqn:Ht.
      * right. repeat split; try reflexivity. simpl. apply truthy_not_null, Ht.
      * left.
        repeat match goal with
               | |- context [if ?b then _ else _] => destruct b
               | |- context [match ?o with Some _ => _ | None => _ end] => destruct o
               end; reflexivity.
    + left.
      repeat match goal with
             | |- context [if ?b then _ else _] => destruct b
             | |- context [match ?o with Some _ => _ | None => _ end] => destruct o
             end; reflexivity.
  - left. audio_cases; reflexivity.
Qed.

Lemma run_language_no_notice (st : state) (es : list event) :
  is_null (language st) = false ->
  List.filter is_language_notice (snd (run st es)) = [].
Proof.
  revert st. induction es as [| e es IH]; intros st Hl; [reflexivity |].
  rewrite run_cons. cbn [snd]. rewrite List.filter_app.
  rewrite IH by (rewrite step_language_fixed by exact Hl; exact Hl).
  rewrite app_nil_r.
  destruct (step_language_notice st e) as [H | (H & _)]; [exact H | congruence].
Qed.

(** The popup is told of a detected language at most once in any run.  A
    configured language that is not [null], be it a language code, the
    empty string or [undefined], is never replaced and never announced. *)
Theorem language_notice_once (st : state) (es : list event) :
  (length (List.filter is_language_notice (snd (run st es))) <= 1)%nat
  /\ (is_null (language st) = false ->
      language (fst (run st es)) = language st
      /\ List.filter is_language_notice (snd (run st es)) = []).
Proof.
  split.
  - revert st. induction es as [| e es IH]; intros st; [simpl; lia |].
    rewrite run_cons. cbn [snd]. rewrite List.filter_app, length_app.
    destruct (step_language_notice st e) as [H | (_ & Hl & H)].
    + rewrite H. simpl. apply IH.
    + rewrite H, (run_language_no_notice _ _ Hl). simpl. lia.
  - intros Hl. split; [apply run_language_fixed, Hl | apply run_language_no_notice, Hl].
Qed.


(** *** What goes out on the socket *)

Ltac effect_cases :=
  repeat match goal with
         | |- context [if ?b then _ else _] => destruct b
         | |- context [match ?o with Some _ => _ | None => _ end] => destruct o
         | |- context [match readyState ?st with _ => _ end] => destruct (readyState st)
         end.

Lemma step_text_frames (st : state) (e : event) :
  List.filter is_text_frame (snd (step st e))
  = if is_onopen e then [SocketSend (TextFrame (the_config uuid opts))] else [].
Proof.
  destruct e as [| code reason | | d | inputData]; simpl; try reflexivity.
  - destruct d as [| data]; [reflexivity |].
    unfold Session.handle_message. effect_cases; reflexivity.
  - unfold Session.handle_audio. effect_cases; reflexivity.
Qed.

(** The text frames of a run are the configuration, once for each [onopen]
    and for nothing else. *)
Theorem configuration_sent_on_open (st : state) (es : list event) :
  List.filter is_text_frame (snd (run st es))
  = map (fun _ => SocketSend (TextFrame (the_config uuid opts)))
        (List.filter is_onopen es).
Proof.
  revert st. induction es as [| e es IH]; intros st; [reflexivity |].
  rewrite run_cons. cbn [snd]. rewrite List.filter_app, IH, step_text_frames.
  destruct e; reflexivity.
Qed.

Lemma step_socket_state (st : state) (e : event) :
  is_onopen e = false -> is_open (readyState st) = false ->
  is_open (readyState (fst (step st e))) = false
  /\ audio_frames (snd (step st e)) = [].
Proof.
  intros He Hst.
  destruct e as [| code reason | | d | inputData]; simpl; try discriminate;
    try (split; [exact Hst | reflexivity]).
  - split; reflexivity.
  - split; [| apply handle_message_no_frame].
    destruct d as [| data]; [exact Hst |].
    unfold Session.handle_message. effect_cases; exact Hst.
  - unfold Session.handle_audio.
    destruct (negb (isServerReady st)); [split; [exact Hst | reflexivity] |].
    destruct (hasAudio inputData); [| split; [exact Hst | reflexivity]].
    split; [exact Hst |]. simpl.
    destruct (readyState st); try reflexivity. discriminate.
Qed.

(** While the socket is not open no audio goes out, whatever the readiness:
    from a state whose socket is not open, a run without [onopen] sends no
    binary frame and leaves the socket as it is. *)
Theorem no_audio_unless_open (st : state) (es : list event) :
  is_open (readyState st) = false ->
  existsb is_onopen es = false ->
  audio_frames (snd (run st es)) = []
  /\ is_open (readyState (fst (run st es))) = false.
Proof.
  revert st. induction es as [| e es IH]; intros st Hst Hes; [split; [reflexivity | exact Hst] |].
  simpl in Hes. apply orb_false_elim in Hes as [He Hes].
  destruct (step_socket_state st e He Hst) as [Hst' Hout].
  rewrite run_cons. cbn [fst snd]. rewrite audio_frames_app, Hout.
  apply IH; assumption.
Qed.

(** *** Order *)

Lemma sent_audio_app (out1 out2 : list effect) :
  sent_audio (out1 ++ out2) = sent_audio out1 ++ sent_audio out2.
Proof. apply omap_app. Qed.

Lemma forwarded_app (out1 out2 : list effect) :
  forwarded (out1 ++ out2) = forwarded out1 ++ forwarded out2.
Proof. apply omap_app. Qed.

Lemma step_sent_audio (st : state) (e : event) :
  sent_audio (snd (step st e)) = []
  \/ exists inputData,
       e = onaudioprocess inputData
       /\ sent_audio (snd (step st e))
          = [Resampler.resampleTo16kHZ inputData sampleRate].
Proof.
  destruct e as [| code reason | | d | inputData]; simpl; try (left; reflexivity).
  - left. destruct d as [| data]; [reflexivity |].
    unfold Session.handle_message. effect_cases; reflexivity.
  - unfold Session.handle_audio.
    destruct (negb (isServerReady st)); [left; reflexivity |].
    destruct (hasAudio inputData); [| left; reflexivity].
    destruct (readyState st); try (left; reflexivity).
    right. exists inputData. split; reflexivity.
Qed.

(** The audio sent is the resampled form of blocks that were captured, in
    the order of capture, each block at most once. *)
Theorem audio_in_capture_order (st : state) (es : list event) :
  sublist (sent_audio (snd (run st es)))
          (map (fun inputData => Resampler.resampleTo16kHZ inputData sampleRate)
               (captured es)).
Proof.
  revert st. induction es as [| e es IH]; intros st; [constructor |].
  rewrite run_cons. cbn [snd]. rewrite sent_audio_app.
  destruct (step_sent_audio st e) as [H | (inputData & -> & H)]; rewrite H.
  - simpl app. destruct e; simpl captured; try apply IH.
    simpl map. apply sublist_cons, IH.
  - simpl. apply sublist_skip, IH.
Qed.

Lemma step_forwarded (st : state) (e : event) :
  forwarded (snd (step st e)) = []
  \/ exists data,
       e = onmessage (Parsed data)
       /\ is_string (data_uid data) uuid = true
       /\ (exists segments, data_segments data = Some segments)
       /\ forwarded (snd (step st e)) = [data].
Proof.
  destruct e as [| code reason | | d | inputData]; simpl; try (left; reflexivity).
  - destruct d as [| data]; [left; reflexivity |].
    unfold Session.handle_message.
    destruct (is_string (data_uid data) uuid) eqn:Hu; [| left; reflexivity]. simpl.
    destruct (is_string (data_status data) "WAIT"); [left; reflexivity |].
    destruct (negb (isServerReady st) && is_string (data_message data) "SERVER_READY");
      [left; reflexivity |].
    destruct (is_null (language st) && truthy (data_language data)); [left; reflexivity |].
    destruct (is_string (data_message data) "DISCONNECT"); [left; reflexivity |].
    destruct (data_segments data) as [segments |] eqn:Hs; [| left; reflexivity].
    right. exists data. split; [reflexivity |]. split; [exact Hu |].
    split; [exists segments; exact Hs |].
    simpl. rewrite forwarded_app. destruct (last segments); reflexivity.
  - left. unfold Session.handle_audio. effect_cases; reflexivity.
Qed.

(** The transcripts forwarded to the tab are messages that were received,
    in the order of arrival and unchanged; each carries the uid of the
    session and a list of segments. *)
Theorem transcripts_forwarded_as_received (st : state) (es : list event) :
  sublist (forwarded (snd (run st es))) (received es)
  /\ Forall (fun data => is_string (data_uid data) uuid = true
                         /\ exists segments, data_segments data = Some segments)
            (forwarded (snd (run st es))).
Proof.
  revert st. induction es as [| e es IH]; intros st; [split; constructor |].
  rewrite run_cons. cbn [snd]. rewrite forwarded_app.
  destruct (IH (fst (step st e))) as [IHsub IHall].
  destruct (step_forwarded st e) as [H | (data & -> & Hu & Hs & H)]; rewrite H.
  - simpl app. split; [| exact IHall].
    destruct e as [| | | [| data] |]; simpl received; try exact IHsub.
    apply sublist_cons, IHsub.
  - simpl. split; [apply sublist_skip, IHsub |].
    constructor; [split; assumption | exact IHall].
Qed.

End Handlers.

Import Examples.

Lemma ready_notice_once_witness :
  let st := fst (run uid auto_detect 44100 (initial auto_detect) [onopen; ready]) in
  isServerReady st = true
  /\ List.filter is_ready_notice
       (snd (run uid auto_detect 44100 st [ready; busy; ready])) = [].
Proof.
  intros st. split; [reflexivity |].
  exact (proj2 (ready_notice_once uid auto_detect 44100 st [ready; busy; ready]) eq_refl).
Defined.

Lemma language_notice_once_witness :
  let st := fst (run uid auto_detect 44100 (initial auto_detect) [detected "en"]) in
  is_null (language st) = false
  /\ language (fst (run uid auto_detect 44100 st [detected "fr"; ready])) = JStr "en"
  /\ List.filter is_language_notice
       (snd (run uid auto_detect 44100 st [detected "fr"; ready])) = [].
Proof.
  intros st. split; [reflexivity |].
  exact (proj2 (language_notice_once uid auto_detect 44100 st [detected "fr"; ready])
               eq_refl).
Defined.

Lemma no_audio_unless_open_witness :
  let st := fst (run uid auto_detect 44100 (initial auto_detect)
                     [onopen; ready; onclose 1006 ""]) in
  let es := [onaudioprocess loud; busy; onaudioprocess loud] in
  is_open (readyState st) = false
  /\ existsb is_onopen es = false
  /\ isServerReady st = true
  /\ audio_frames (snd (run uid auto_detect 44100 st es)) = [].
Proof.
  intros st es. split; [reflexivity |]. split; [reflexivity |]. split; [reflexivity |].
  exact (proj1 (no_audio_unless_open uid auto_detect 44100 st es eq_refl eq_refl)).
Defined.

End SessionMore.

(** ** Transcript renderer: lines and page *)

Module RendererMore.
Import JsNum Wire Renderer Invariants RendererFacts RendererWords.

Section Layout.
Variable offsetHeight : str -> Z.
Variable lineHeightStyle : option Z.
Variable innerHTML : str -> str.

Abbreviation lines_step := (lines_step offsetHeight).
Abbreviation getLines := (getLines offsetHeight).
Abbreviation updateTranscription :=
  (updateTranscription offsetHeight lineHeightStyle innerHTML).
Abbreviation on_request := (on_request offsetHeight lineHeightStyle innerHTML).
Abbreviation on_requests := (on_requests offsetHeight lineHeightStyle innerHTML).

(** *** How many lines *)

Lemma lines_step_count (lineHeight : Z) (st : lines_state) (word : str) :
  currentLines st = 1 + Z.of_nat (length (segments st)) ->
  currentLines (lines_step lineHeight st word)
  = 1 + Z.of_nat (length (segments (lines_step lineHeight st word)))
  /\ (length (segments st) <= length (segments (lines_step lineHeight st word))
      <= S (length (segments st)))%nat.
Proof.
  intros H. unfold Renderer.lines_step. destruct (gt_int _ _); simpl.
  - rewrite length_app. simpl. lia.
  - lia.
Qed.

Lemma lines_loop_count (lineHeight : Z) (ws : list str) (st : lines_state) :
  currentLines st = 1 + Z.of_nat (length (segments st)) ->
  let st' := fold_left (lines_step lineHeight) ws st in
  currentLines st' = 1 + Z.of_nat (length (segments st'))
  /\ (length (segments st) <= length (segments st')
      <= length (segments st) + length ws)%nat.
Proof.
  revert st. induction ws as [| w ws IH]; intros st H; simpl.
  - split; [exact H | lia].
  - destruct (lines_step_count lineHeight st w H) as [H1 H2].
    destruct (IH _ H1) as [H3 H4]. split; [exact H3 | lia].
Qed.

(** [getLines] returns as many lines as [currentLines] counts at the end of
    the loop: at least one, and at most one more than there are words. *)
Theorem lines_count (originalText : str) (lineHeight : Z) :
  let st := fold_left (lines_step lineHeight) (split originalText) lines_init in
  Z.of_nat (length (getLines originalText lineHeight)) = currentLines st
  /\ (1 <= length (getLines originalText lineHeight)
      <= S (length (split originalText)))%nat.
Proof.
  intros st. unfold Renderer.getLines. fold st. rewrite length_app. simpl.
  destruct (lines_loop_count lineHeight (split originalText) lines_init eq_refl)
    as [H1 H2].
  fold st in H1, H2. simpl in H2. split; lia.
Qed.

(** *** Text that fits on one line *)

Lemma one_line_loop (lineHeight : Z) (ws : list str) (st : lines_state) :
  (forall t, gt_int (div_int (offsetHeight t) lineHeight) 1 = false) ->
  segments st = [] -> currentLines st = 1 -> segmentLen st = 0 ->
  let st' := fold_left (lines_step lineHeight) ws st in
  segments st' = [] /\ segmentLen st' = 0
  /\ segment st' = segment st ++ concat (map (fun w => w ++ [space]) ws).
Proof.
  intros Hfit. revert st. induction ws as [| w ws IH]; intros st Hs Hc Hl; simpl.
  - rewrite app_nil_r. repeat split; assumption.
  - assert (E : lines_step lineHeight st w
                = {| segments := segments st; currentLines := currentLines st;
                     segment := segment st ++ w ++ [space];
                     segmentLen := segmentLen st |}).
    { unfold Renderer.lines_step. rewrite Hc, Hfit. reflexivity. }
    rewrite E. clear E.
    destruct (IH {| segments := segments st; currentLines := currentLines st;
                    segment := segment st ++ w ++ [space];
                    segmentLen := segmentLen st |} Hs Hc Hl) as (H1 & H2 & H3).
    simpl in H3. rewrite H3, <- !app_assoc. repeat split; assumption.
Qed.

Lemma words_with_spaces (ws : list str) :
  ws <> [] -> concat (map (fun w => w ++ [space]) ws) = join ws ++ [space].
Proof.
  induction ws as [| w ws IH]; [congruence |]. intros _.
  destruct ws as [| x ws].
  - simpl. rewrite app_nil_r. reflexivity.
  - rewrite join_cons by discriminate. simpl map in *. simpl concat in *.
    rewrite IH by discriminate. rewrite <- !app_assoc. reflexivity.
Qed.

(** When no text measures higher than one line, [getLines] returns the text
    itself as its only line. *)
Theorem fitting_text_is_one_line (originalText : str) (lineHeight : Z) :
  (forall t, gt_int (div_int (offsetHeight t) lineHeight) 1 = false) ->
  getLines originalText lineHeight = [originalText].
Proof.
  intros Hfit. unfold Renderer.getLines.
  destruct (one_line_loop lineHeight (split originalText) lines_init Hfit
              eq_refl eq_refl eq_refl) as (H1 & H2 & H3).
  rewrite H1, H2, H3. simpl app.
  rewrite words_with_spaces by apply split_nonempty. rewrite join_split.
  f_equal.
  replace (len (originalText ++ [space]) - 1) with (len [] + len originalText)
    by (rewrite len_app; unfold len; simpl; lia).
  apply (substring_middle [] originalText [space]).
Qed.

(** *** The page *)

Lemma map_clear_length (els els' : list str) :
  length els = length els' ->
  map (fun _ : str => ([] : str)) els = map (fun _ : str => ([] : str)) els'.
Proof.
  revert els'. induction els as [| e els IH]; intros [| e' els'] H;
    simpl in *; try discriminate; [reflexivity |].
  f_equal. apply IH. lia.
Qed.

(** Showing the same text twice leaves the page as showing it once. *)
Theorem update_idempotent (pg : page) (text : str) :
  updateTranscription (updateTranscription pg text) text = updateTranscription pg text.
Proof.
  unfold Renderer.updateTranscription. cbn [transcriptionContainer textSegments popup].
  f_equal. f_equal. f_equal. apply map_clear_length.
  rewrite length_show_segments, length_map. reflexivity.
Qed.

(** Whatever requests arrive, the overlay, when it exists, has its three
    visible elements. *)
Theorem overlay_has_three_elements (rs : list request) :
  match transcriptionContainer (on_requests page_init rs) with
  | Some els => length els = 3%nat
  | None => True
  end.
Proof.
  exact (three_elements_requests offsetHeight lineHeightStyle innerHTML rs page_init I).
Qed.

Lemma measured_loop (lineHeight : Z) (ws : list str) (st : lines_state) :
  Forall (fun m => gt_int (div_int (offsetHeight m) lineHeight) 1 = false)
         (measured (segment st) ws) ->
  segments st = [] -> currentLines st = 1 -> segmentLen st = 0 ->
  let st' := fold_left (lines_step lineHeight) ws st in
  segments st' = [] /\ segmentLen st' = 0
  /\ segment st' = segment st ++ concat (map (fun w => w ++ [space]) ws).
Proof.
  revert st. induction ws as [| w ws IH]; intros st Hfit Hs Hc Hl; simpl.
  - rewrite app_nil_r. repeat split; assumption.
  - simpl in Hfit. inversion Hfit as [| ? ? Hw Hws]; subst.
    assert (E : lines_step lineHeight st w
                = {| segments := segments st; currentLines := currentLines st;
                     segment := segment st ++ w ++ [space];
                     segmentLen := segmentLen st |}).
    { unfold Renderer.lines_step. rewrite Hc, Hw. reflexivity. }
    rewrite E. clear E.
    destruct (IH {| segments := segments st; currentLines := currentLines st;
                    segment := segment st ++ w ++ [space];
                    segmentLen := segmentLen st |} Hws Hs Hc Hl) as (H1 & H2 & H3).
    simpl in H3. rewrite H3, <- !app_assoc. repeat split; assumption.
Qed.

Lemma fitting_lines (t : str) (lineHeight : Z) :
  fits_one_line offsetHeight lineHeight t -> getLines t lineHeight = [t].
Proof.
  intros Hfit. unfold Renderer.getLines.
  destruct (measured_loop lineHeight (split t) lines_init Hfit eq_refl eq_refl eq_refl)
    as (H1 & H2 & H3).
  rewrite H1, H2, H3. simpl app.
  rewrite words_with_spaces by apply split_nonempty. rewrite join_split.
  f_equal.
  replace (len (t ++ [space]) - 1) with (len [] + len t)
    by (rewrite len_app; unfold len; simpl; lia).
  apply (substring_middle [] t [space]).
Qed.

(** A batch with content whose text, as the measuring element reads it
    back, fits on one line is shown whole in the first visible element, the
    closing space kept; the other two elements are empty, whatever was shown
    before. *)
Theorem fitting_batch_shown_whole
    (rs : list request) (message : server_message) (segs : list Wire.segment) :
  data_segments message = Some segs ->
  has_content (batch_text segs) = true ->
  fits_one_line offsetHeight (lineHeight lineHeightStyle)
                (innerHTML (replace_breaks (batch_text segs))) ->
  let pg := on_requests page_init (rs ++ [transcript (Parsed message)]) in
  textSegments pg = [innerHTML (replace_breaks (batch_text segs))]
  /\ transcriptionContainer pg
     = Some [innerHTML (replace_breaks (batch_text segs)); []; []].
Proof.
  intros Hsegs Hcontent Hfit pg. subst pg.
  rewrite on_requests_snoc. simpl. rewrite Hsegs, Hcontent.
  unfold Renderer.updateTranscription. cbn [textSegments transcriptionContainer].
  rewrite (fitting_lines _ _ Hfit). split; [reflexivity |].
  f_equal.
  pose proof (three_elements_requests offsetHeight lineHeightStyle innerHTML
                rs page_init I) as H3.
  unfold three_elements in H3.
  destruct (transcriptionContainer (on_requests page_init rs)) as [els |].
  - destruct els as [| e0 [| e1 [| e2 [| e3 els]]]]; try discriminate. reflexivity.
  - reflexivity.
Qed.

End Layout.

(** *** Cleaning and blank batches *)

Lemma replace_breaks_bounded (n : nat) (s : str) :
  (length s <= n)%nat ->
  Forall (fun c => is_break c = false) (replace_breaks s)
  /\ (length (replace_breaks s) <= length s)%nat.
Proof.
  revert s. induction n as [| n IH]; intros s Hn.
  - destruct s; [split; [constructor | reflexivity] | simpl in Hn; lia].
  - destruct s as [| c s]; [split; [constructor | reflexivity] |].
    simpl in Hn. simpl replace_breaks.
    destruct (Ascii.eqb c CR) eqn:Ecr.
    + destruct s as [| d s]; [split; [repeat constructor | simpl; lia] |].
      simpl in Hn. destruct (Ascii.eqb d LF).
      * destruct (IH s ltac:(lia)) as [H1 H2].
        split; [constructor; [reflexivity | exact H1] | simpl; lia].
      * destruct (IH (d :: s) ltac:(simpl; lia)) as [H1 H2].
        split; [constructor; [reflexivity | exact H1] | simpl in *; lia].
    + destruct (Ascii.eqb c LF) eqn:Elf.
      * destruct (IH s ltac:(lia)) as [H1 H2].
        split; [constructor; [reflexivity | exact H1] | simpl; lia].
      * destruct (IH s ltac:(lia)) as [H1 H2].
        split; [constructor; [| exact H1] | simpl; lia].
        unfold is_break. rewrite Ecr, Elf. reflexivity.
Qed.

Lemma replace_breaks_clean (s : str) :
  Forall (fun c => is_break c = false) s -> replace_breaks s = s.
Proof.
  induction s as [| c s IH]; intros H; [reflexivity |].
  inversion H as [| ? ? Hc Hs]; subst. unfold is_break in Hc.
  apply orb_false_elim in Hc as [Ecr Elf].
  simpl. rewrite Ecr, Elf, IH by exact Hs. reflexivity.
Qed.

(** Cleaning leaves no carriage return and no line feed, never lengthens the
    text, and changes nothing when applied again. *)
Theorem cleaned_text_has_no_breaks (s : str) :
  Forall (fun c => is_break c = false) (replace_breaks s)
  /\ (length (replace_breaks s) <= length s)%nat
  /\ replace_breaks (replace_breaks s) = replace_breaks s.
Proof.
  destruct (replace_breaks_bounded (length s) s (le_n _)) as [H1 H2].
  split; [exact H1 |]. split; [exact H2 |]. apply replace_breaks_clean, H1.
Qed.

Lemma has_content_app (s t : str) :
  has_content (s ++ t) = has_content s || has_content t.
Proof. unfold has_content. apply existsb_app. Qed.

(** The text of a batch survives [trim] exactly when some segment has a
    text that does: only such a batch updates the overlay. *)
Theorem batch_content (segs : list Wire.segment) :
  has_content (batch_text segs) = existsb segment_has_content segs.
Proof.
  induction segs as [| s segs IH]; [reflexivity |].
  simpl. unfold segment_has_content at 1.
  destruct (text s) as [t |]; [| exact IH].
  destruct (bool_decide_reflect (t = [])) as [-> | Hne]; [exact IH |].
  rewrite has_content_app. simpl. rewrite IH. reflexivity.
Qed.

Import Examples.

Lemma fitting_text_is_one_line_witness :
  (forall t, gt_int (div_int (wide_box t) 24) 1 = false)
  /\ Renderer.getLines wide_box (list_ascii_of_string "hello world ") 24
     = [list_ascii_of_string "hello world "].
Proof.
  assert (H : forall t, gt_int (div_int (wide_box t) 24) 1 = false)
    by (intros t; reflexivity).
  split; [exact H |].
  exact (fitting_text_is_one_line wide_box (list_ascii_of_string "hello world ") 24 H).
Defined.

(** In a box five characters wide, where the height grows with the length,
    "hi" fits and longer texts do not. *)
Lemma fitting_batch_shown_whole_witness :
  let box := fun t : str => 24 * (1 + Z.of_nat (length t) / 6) in
  data_segments (segments_message uid (batch "hi")) = Some (batch "hi")
  /\ has_content (batch_text (batch "hi")) = true
  /\ fits_one_line box (Renderer.lineHeight None)
                   (read_back (replace_breaks (batch_text (batch "hi"))))
  /\ transcriptionContainer
       (Renderer.on_requests box None read_back page_init
          ([transcript_of (batch "one two three")] ++ [transcript_of (batch "hi")]))
     = Some [list_ascii_of_string "hi "; []; []].
Proof.
  intros box.
  assert (H : fits_one_line box (Renderer.lineHeight None)
                (read_back (replace_breaks (batch_text (batch "hi")))))
    by (repeat constructor).
  split; [reflexivity |]. split; [reflexivity |]. split; [exact H |].
  exact (proj2 (fitting_batch_shown_whole box None read_back
                  [transcript_of (batch "one two three")]
                  (segments_message uid (batch "hi")) (batch "hi")
                  eq_refl eq_refl H)).
Defined.

End RendererMore.

(** ** Client identifier *)

Module UuidFacts.
Import Wire Uuid.

Lemma draw_range (random : Q) :
  (0 <= random)%Q -> (random < 1)%Q -> 0 <= draw random < 16.
Proof.
  intros H0 H1. unfold draw. split.
  - change 0 with (Qfloor 0). apply Qfloor_resp_le. lra.
  - pose proof (Qfloor_le (random * 16)) as Hf.
    assert (H : (inject_Z (Qfloor (random * 16)) < inject_Z 16)%Q).
    { change (inject_Z 16) with 16%Q. lra. }
    rewrite <- Zlt_Qlt in H. exact H.
Qed.

Lemma toString16_digit (v : Z) : 0 <= v < 16 -> toString16 v = [hex_digit v].
Proof.
  intros Hv. unfold toString16.
  destruct (Z.ltb_spec v 0); [lia |]. simpl.
  destruct (Z.ltb_spec v 16); [reflexivity | lia].
Qed.

Lemma replacement_fills (c : ascii) (random : Q) :
  (0 <= random)%Q -> (random < 1)%Q ->
  Ascii.eqb c "x" || Ascii.eqb c "y" = true ->
  exists d, replacement c random = [d] /\ fills c d = true.
Proof.
  intros H0 H1 Hc. pose proof (draw_range random H0 H1) as Hr.
  unfold replacement, fills. set (r := draw random) in *. clearbody r.
  destruct (Ascii.eqb c "x") eqn:Ex.
  - exists (hex_digit r). split; [apply toString16_digit, Hr |].
    assert (Hcases : r = 0 \/ r = 1 \/ r = 2 \/ r = 3 \/ r = 4 \/ r = 5 \/ r = 6 \/ r = 7
                     \/ r = 8 \/ r = 9 \/ r = 10 \/ r = 11 \/ r = 12 \/ r = 13
                     \/ r = 14 \/ r = 15) by lia.
    repeat (destruct Hcases as [-> | Hcases]; [reflexivity |]). subst. reflexivity.
  - simpl in Hc. rewrite Hc.
    assert (Hcases : r = 0 \/ r = 1 \/ r = 2 \/ r = 3 \/ r = 4 \/ r = 5 \/ r = 6 \/ r = 7
                     \/ r = 8 \/ r = 9 \/ r = 10 \/ r = 11 \/ r = 12 \/ r = 13
                     \/ r = 14 \/ r = 15) by lia.
    repeat (destruct Hcases as [-> | Hcases];
            [eexists; split; [reflexivity | reflexivity] |]).
    subst. eexists; split; reflexivity.
Qed.

Lemma replace_xy_fills (random : nat -> Q) (t : str) (k : nat) :
  (forall k, (0 <= random k)%Q /\ (random k < 1)%Q) ->
  Forall2 (fun t c => fills t c = true) t (replace_xy random k t).
Proof.
  intros Hrandom. revert k. induction t as [| c t IH]; intros k; [constructor |].
  simpl. destruct (Ascii.eqb c "x" || Ascii.eqb c "y") eqn:Hc.
  - destruct (Hrandom k) as [H0 H1].
    destruct (replacement_fills c (random k) H0 H1 Hc) as (d & -> & Hd).
    simpl. constructor; [exact Hd | apply IH].
  - apply orb_false_elim in Hc as [Ex Ey].
    constructor; [| apply IH]. unfold fills. rewrite Ex, Ey. apply Ascii.eqb_refl.
Qed.

Lemma fills_literal (t c : ascii) :
  Ascii.eqb t "x" || Ascii.eqb t "y" = false -> fills t c = true -> c = t.
Proof.
  intros Ht. apply orb_false_elim in Ht as [Ex Ey].
  unfold fills. rewrite Ex, Ey. intros H. apply Ascii.eqb_eq in H. congruence.
Qed.

Lemma filled_template_shape (u : str) :
  Forall2 (fun t c => fills t c = true) template u ->
  length u = 36%nat
  /\ u !! 8%nat = Some "-"%char /\ u !! 13%nat = Some "-"%char
  /\ u !! 18%nat = Some "-"%char /\ u !! 23%nat = Some "-"%char
  /\ u !! 14%nat = Some "4"%char
  /\ (exists c, u !! 19%nat = Some c /\ In c (list_ascii_of_string "89ab")).
Proof.
  intros H.
  assert (Hat : forall i t, template !! i = Some t ->
                exists c, u !! i = Some c /\ fills t c = true).
  { intros i t Ht. destruct (Forall2_lookup_l _ _ _ _ _ H Ht) as (c & Hc & Hf).
    exists c. split; assumption. }
  assert (Hlit : forall i t, template !! i = Some t ->
                 Ascii.eqb t "x" || Ascii.eqb t "y" = false -> u !! i = Some t).
  { intros i t Ht Hxy. destruct (Hat i t Ht) as (c & Hc & Hf).
    rewrite Hc. f_equal. apply (fills_literal t c Hxy Hf). }
  split. { apply Forall2_length in H. rewrite <- H. reflexivity. }
  do 5 (split; [apply Hlit; reflexivity |]).
  destruct (Hat 19%nat "y"%char eq_refl) as (c & Hc & Hf).
  exists c. split; [exact Hc |]. unfold fills in Hf. simpl in Hf.
  repeat match type of Hf with
         | (Ascii.eqb ?a ?b || _) = true =>
             destruct (Ascii.eqb_spec a b) as [-> | _]; [simpl; tauto | simpl in Hf]
         end.
  discriminate.
Qed.

(** Whatever [Math.random] returns, the identifier has the form of a
    version 4 UUID: 36 characters, every [x] of the template replaced by
    one lower-case hexadecimal digit, the [y] by one of 8, 9, a, b, the
    hyphens and the 4 in their places. *)
Theorem generateUUID_shape (random : nat -> Q) :
  (forall k, (0 <= random k)%Q /\ (random k < 1)%Q) ->
  Forall2 (fun t c => fills t c = true) template (generateUUID random)
  /\ length (generateUUID random) = 36%nat
  /\ generateUUID random !! 8%nat = Some "-"%char
  /\ generateUUID random !! 13%nat = Some "-"%char
  /\ generateUUID random !! 18%nat = Some "-"%char
  /\ generateUUID random !! 23%nat = Some "-"%char
  /\ generateUUID random !! 14%nat = Some "4"%char
  /\ (exists c, generateUUID random !! 19%nat = Some c
                /\ In c (list_ascii_of_string "89ab")).
Proof.
  intros Hrandom.
  pose proof (replace_xy_fills random template 0 Hrandom) as H.
  split; [exact H |]. exact (filled_template_shape _ H).
Qed.

Lemma generateUUID_shape_witness :
  (forall k : nat, (0 <= 1 # 2)%Q /\ ((1 # 2) < 1)%Q)
  /\ generateUUID (fun _ => 1 # 2)
     = list_ascii_of_string "88888888-8888-4888-8888-888888888888"
  /\ length (generateUUID (fun _ => 1 # 2)) = 36%nat.
Proof.
  assert (H : forall k : nat, (0 <= 1 # 2)%Q /\ ((1 # 2) < 1)%Q)
    by (intros _; unfold Qle, Qlt; simpl; lia).
  split; [exact H |]. split; [reflexivity |].
  exact (proj1 (proj2 (generateUUID_shape (fun _ => 1 # 2) H))).
Defined.

End UuidFacts.

(** ** Dragging the overlay *)

Module DragFacts.
Import Drag.

Lemma drag_run_cons (st : state) (e : event) (es : list event) :
  run st (e :: es)
  = (fst (run (fst (handle st e)) es),
     match snd (handle st e) with
     | Some p => p :: snd (run (fst (handle st e)) es)
     | None => snd (run (fst (handle st e)) es)
     end).
Proof.
  simpl. destruct (handle st e) as [st1 p]. simpl.
  destruct (run st1 es) as [st2 ps]. reflexivity.
Qed.

(** Without an accepted [mousedown] nothing moves: while no drag is under
    way, moves and releases, and presses of another button or on a button of
    the overlay, place nothing and start no drag. *)
Theorem idle_moves_ignored (st : state) (es : list event) :
  listening st = false ->
  Forall (fun e => match e with
                   | mousedown button onButton _ _ => negb (button =? 0) || onButton = true
                   | _ => True
                   end) es ->
  snd (run st es) = [] /\ listening (fst (run st es)) = false.
Proof.
  revert st. induction es as [| e es IH]; intros st Hst Hes; [split; [reflexivity | exact Hst] |].
  inversion Hes as [| ? ? He Hes']; subst. rewrite drag_run_cons.
  destruct e as [button onButton cx cy | cx cy ol ot |]; simpl.
  - destruct (negb (button =? 0)); [apply IH; assumption |].
    simpl in He. rewrite He. apply IH; assumption.
  - rewrite Hst. simpl. apply IH; assumption.
  - apply IH; [reflexivity | assumption].
Qed.

Lemma follows_track (l t : Z) (st : state) (l0 t0 : Z) (st0 : state) (es : list event) :
  listening st = true -> follows l t st es ->
  l - x st = l0 - x st0 -> t - y st = t0 - y st0 ->
  snd (run st es) = map (track l0 t0 st0) es.
Proof.
  revert l t st. induction es as [| e es IH]; intros l t st Hst Hes Hl Ht; [reflexivity |].
  destruct e as [button onButton cx cy | cx cy ol ot |]; simpl in Hes; try contradiction.
  destruct Hes as (-> & -> & Hes).
  rewrite drag_run_cons. simpl handle. rewrite Hst. cbn [fst snd].
  rewrite (IH _ _ {| x := cx; y := cy; listening := true |} eq_refl Hes)
    by (simpl; lia).
  simpl map. f_equal. f_equal; lia.
Qed.

(** During a drag the element keeps to the pointer: when the layout gives
    back each position written, every move puts the element as far from
    where it was as the pointer is from where the drag began. *)
Theorem element_follows_pointer (l t : Z) (st : state) (es : list event) :
  listening st = true -> follows l t st es ->
  snd (run st es) = map (track l t st) es.
Proof.
  intros Hst Hes. apply (follows_track l t st); [exact Hst | exact Hes | reflexivity | reflexivity].
Qed.

Lemma idle_moves_ignored_witness :
  let es := [mousemove 5 5 100 200; mousedown 2 false 1 1; mousemove 9 9 100 200;
             mousedown 0 true 3 3; mouseup; mousemove 7 7 100 200] in
  listening initial = false
  /\ snd (run initial es) = [].
Proof.
  intros es. split; [reflexivity |].
  apply (idle_moves_ignored initial es); [reflexivity |].
  repeat constructor.
Defined.

Lemma element_follows_pointer_witness :
  let st := fst (run initial [mousedown 0 false 10 20]) in
  let es := [mousemove 13 24 100 200; mousemove 11 30 103 204] in
  listening st = true
  /\ follows 100 200 st es
  /\ snd (run st es) = [{| left := 103; top := 204 |}; {| left := 101; top := 210 |}].
Proof.
  intros st es.
  assert (Hf : follows 100 200 st es) by (simpl; repeat split; reflexivity).
  split; [reflexivity |]. split; [exact Hf |].
  exact (element_follows_pointer 100 200 st es eq_refl Hf).
Defined.

End DragFacts.
